(** * rebound.c: the step orchestrator and the integration loop

    A shallow embedding of [rebound_step], [rebound_init] and
    [rebound_integrate] of src/rebound.c, and the properties of their
    control flow.

    What rebound.c calls but does not define (the integrator backends, the
    boundary handler, the tree, gravity, collisions, MPI exchange, display
    and the user's callbacks) is a parameter of the development: a record
    of state transformers.  Every call is recorded in a trace, so that the
    order of calls can be stated. *)

From Stdlib Require Import ZArith List Bool Lia.
From Stdlib Require Import Floats.
Import ListNotations.

Local Open Scope Z_scope.

(** ** Arithmetic on C [double]

    rebound.c computes on [double] with [+], [-], [*], [<], [>], [>=],
    the truth value of a double ([if (maxR)]) and [copysign(1., x)].  The
    embedding is written over an interface with these operations, so that
    what is proved about control flow holds whatever the arithmetic is.
    The instance is IEEE binary64, the arithmetic of the compiled code. *)

Class DoubleOps (D : Type) := {
  (** the decimal literal [m]e[e], as in [0.001] = [dlit 1 (-3)] *)
  dlit : Z -> Z -> D;
  dadd : D -> D -> D;
  dsub : D -> D -> D;
  dmul : D -> D -> D;
  (** [x < y] and [x <= y] *)
  dlt : D -> D -> bool;
  dle : D -> D -> bool;
  (** [x != 0], the truth value of [x] *)
  dnonzero : D -> bool;
  (** [copysign(1., x)] *)
  copysign1 : D -> D
}.

(** [x > y] and [x >= y] are the mirrored comparisons. *)
Definition dgt {D} `{DoubleOps D} (a b : D) : bool := dlt b a.
Definition dge {D} `{DoubleOps D} (a b : D) : bool := dle b a.

(** IEEE binary64.  A literal is the quotient or product of its mantissa
    and power of ten, which is the correctly rounded value whenever both
    are exact in binary64 (all literals of rebound.c are). *)
Definition float_of_Z (n : Z) : float :=
  match n with
  | Z0 => PrimFloat.zero
  | Zpos _ => PrimFloat.of_uint63 (Uint63.of_Z n)
  | Zneg _ => PrimFloat.opp (PrimFloat.of_uint63 (Uint63.of_Z (- n)))
  end.

Definition float_lit (m e : Z) : float :=
  if 0 <=? e then PrimFloat.mul (float_of_Z m) (float_of_Z (10 ^ e))
  else PrimFloat.div (float_of_Z m) (float_of_Z (10 ^ (- e))).

(** [copysign(1., a)] is 1 with the sign bit of [a].  A NaN has a sign
    bit too, which [float] does not hold (it has a single NaN):
    [nan_sign] is that bit, set or not, of the NaN that [a] may be. *)
Definition float_copysign1 (nan_sign : bool) (a : float) : float :=
  match PrimFloat.classify a with
  | NInf | NNormal | NSubn | NZero => PrimFloat.opp PrimFloat.one
  | NaN => if nan_sign then PrimFloat.opp PrimFloat.one else PrimFloat.one
  | _ => PrimFloat.one
  end.

(** Binary64, with the sign bit of the NaN that line 228 may be given
    (the only [copysign] of rebound.c is that of [r->dt] there). *)
Definition Binary64_signed (nan_sign : bool) : DoubleOps float := {|
  dlit := float_lit;
  dadd := PrimFloat.add;
  dsub := PrimFloat.sub;
  dmul := PrimFloat.mul;
  dlt := PrimFloat.ltb;
  dle := PrimFloat.leb;
  dnonzero := fun a => negb (PrimFloat.eqb a PrimFloat.zero);
  copysign1 := float_copysign1 nan_sign
|}.

(** The instance of the runs below, none of which has a NaN for [dt]. *)
#[export] Instance Binary64 : DoubleOps float := Binary64_signed false.

(** ** The data model

    rebound.h is not part of the sources; the records below hold the
    fields that rebound.c reads or writes, with their C names.  A field
    or local of type [int] is an integer of [Z]: the only arithmetic of
    rebound.c on them is [last_step++], which stays below 3, and
    [N - N_megno]. *)

(** A function pointer is an address; [NULL] is 0. *)
Definition fnptr := Z.
Definition NULL : fnptr := 0.
Definition is_set (p : fnptr) : bool := negb (p =? NULL).

(** Modelled from the spec: [struct Particle] is declared in particle.h,
    which is not under src/; the spec gives it position, velocity, mass
    and radius.  rebound.c reads [x], [y] and [z]. *)
Module Particle.
Record struct {D : Type} := mk {
  x : D; y : D; z : D;
  vx : D; vy : D; vz : D;
  m : D;
  r : D
}.
Arguments struct : clear implicits.
Arguments mk {D}.
End Particle.

(** [r->ri_whfast]: the scratch state of the symplectic integrator. *)
Module WHFast.
Record struct := mk {
  corrector : Z;
  safe_mode : Z;
  recalculate_jacobi_this_timestep : Z;
  is_synchronized : Z;
  allocated_N : Z;
  timestep_warning : Z;
  recalculate_jacobi_but_not_synchronized_warning : Z
}.
Definition set_recalculate_jacobi_this_timestep (v : Z) (s : struct) : struct :=
  mk (corrector s) (safe_mode s) v (is_synchronized s) (allocated_N s)
     (timestep_warning s) (recalculate_jacobi_but_not_synchronized_warning s).
Definition set_is_synchronized (v : Z) (s : struct) : struct :=
  mk (corrector s) (safe_mode s) (recalculate_jacobi_this_timestep s) v
     (allocated_N s) (timestep_warning s)
     (recalculate_jacobi_but_not_synchronized_warning s).
End WHFast.

(** [r->ri_ias15]: the scratch state of the adaptive integrator. *)
Module IAS15.
Record struct {D : Type} := mk {
  epsilon : D;
  min_dt : D;
  epsilon_global : Z;
  iterations_max_exceeded : Z
}.
Arguments struct : clear implicits.
Arguments mk {D}.
End IAS15.

(** Modelled from the spec: the integrator tag is an enum of integrator.h,
    which is not under src/; rebound.c names [IAS15] only, the spec names
    the symplectic variant and "others". *)
Inductive integrator_t := IAS15 | WHFAST | OTHER_INTEGRATOR (tag : Z).

(** [struct Rebound]. *)
Module Rebound.
Record struct {D : Type} := mk {
  t : D;
  G : D;
  softening : D;
  dt : D;
  boxsize : D;
  boxsize_x : D;
  boxsize_y : D;
  boxsize_z : D;
  boxsize_max : D;
  root_nx : Z;
  root_ny : Z;
  root_nz : Z;
  root_n : Z;
  N : Z;
  Nmax : Z;
  N_active : Z;
  N_megno : Z;
  exit_simulation : Z;
  exact_finish_time : Z;
  particles : list (Particle.struct D);
  integrator : integrator_t;
  force_is_velocitydependent : Z;
  additional_forces : fnptr;
  finished : fnptr;
  post_timestep : fnptr;
  post_timestep_modifications : fnptr;
  ri_whfast : WHFast.struct;
  ri_ias15 : IAS15.struct D
}.
Arguments struct : clear implicits.
Arguments mk {D}.

Definition set_t {D} (v : D) (s : struct D) : struct D :=
  mk v (G s) (softening s) (dt s) (boxsize s) (boxsize_x s) (boxsize_y s)
     (boxsize_z s) (boxsize_max s) (root_nx s) (root_ny s) (root_nz s)
     (root_n s) (N s) (Nmax s) (N_active s) (N_megno s) (exit_simulation s)
     (exact_finish_time s) (particles s) (integrator s)
     (force_is_velocitydependent s) (additional_forces s) (finished s)
     (post_timestep s) (post_timestep_modifications s) (ri_whfast s)
     (ri_ias15 s).

Definition set_dt {D} (v : D) (s : struct D) : struct D :=
  mk (t s) (G s) (softening s) v (boxsize s) (boxsize_x s) (boxsize_y s)
     (boxsize_z s) (boxsize_max s) (root_nx s) (root_ny s) (root_nz s)
     (root_n s) (N s) (Nmax s) (N_active s) (N_megno s) (exit_simulation s)
     (exact_finish_time s) (particles s) (integrator s)
     (force_is_velocitydependent s) (additional_forces s) (finished s)
     (post_timestep s) (post_timestep_modifications s) (ri_whfast s)
     (ri_ias15 s).

Definition set_ri_whfast {D} (v : WHFast.struct) (s : struct D) : struct D :=
  mk (t s) (G s) (softening s) (dt s) (boxsize s) (boxsize_x s) (boxsize_y s)
     (boxsize_z s) (boxsize_max s) (root_nx s) (root_ny s) (root_nz s)
     (root_n s) (N s) (Nmax s) (N_active s) (N_megno s) (exit_simulation s)
     (exact_finish_time s) (particles s) (integrator s)
     (force_is_velocitydependent s) (additional_forces s) (finished s)
     (post_timestep s) (post_timestep_modifications s) v (ri_ias15 s).
End Rebound.

(** ** Calls, traces and the build

    One event per call that leaves rebound.c, per line written to the
    terminal and per read of the wall clock. *)
Inductive Event :=
| EvIntegratorPart1
| EvBoundariesCheck
| EvTreeUpdate
| EvMpiDistributeParticles
| EvTreeUpdateGravityData
| EvTreePrepareEssentialTree
| EvMpiDistributeEssentialTree
| EvGravity
| EvGravityVariational
| EvAdditionalForces
| EvIntegratorPart2
| EvIntegratorSynchronize
| EvPostTimestepModifications
| EvCollisionsSearch
| EvCollisionsResolve
| EvDisplay
| EvPostTimestep
| EvGettimeofday
| EvErrorNoParticles
| EvPrintRuntime
| EvPrintLogo
| EvToolsInitSrand
| EvErrorRootBoxes
| EvPrintInitialized
| EvPrintOpenMP.

Definition Event_eqb (a b : Event) : bool :=
  match a, b with
  | EvIntegratorPart1, EvIntegratorPart1
  | EvBoundariesCheck, EvBoundariesCheck
  | EvTreeUpdate, EvTreeUpdate
  | EvMpiDistributeParticles, EvMpiDistributeParticles
  | EvTreeUpdateGravityData, EvTreeUpdateGravityData
  | EvTreePrepareEssentialTree, EvTreePrepareEssentialTree
  | EvMpiDistributeEssentialTree, EvMpiDistributeEssentialTree
  | EvGravity, EvGravity
  | EvGravityVariational, EvGravityVariational
  | EvAdditionalForces, EvAdditionalForces
  | EvIntegratorPart2, EvIntegratorPart2
  | EvIntegratorSynchronize, EvIntegratorSynchronize
  | EvPostTimestepModifications, EvPostTimestepModifications
  | EvCollisionsSearch, EvCollisionsSearch
  | EvCollisionsResolve, EvCollisionsResolve
  | EvDisplay, EvDisplay
  | EvPostTimestep, EvPostTimestep
  | EvGettimeofday, EvGettimeofday
  | EvErrorNoParticles, EvErrorNoParticles
  | EvPrintRuntime, EvPrintRuntime
  | EvPrintLogo, EvPrintLogo
  | EvToolsInitSrand, EvToolsInitSrand
  | EvErrorRootBoxes, EvErrorRootBoxes
  | EvPrintInitialized, EvPrintInitialized
  | EvPrintOpenMP, EvPrintOpenMP => true
  | _, _ => false
  end.

(** The preprocessor symbols that rebound.c tests.  The PROFILING_START
    and PROFILING_STOP macros expand to nothing in a build without
    profiling and are left out. *)
Record BuildConfig := {
  TREE : bool;
  MPI : bool;
  GRAVITY_TREE : bool;
  COLLISIONS_NONE : bool;
  OPENGL : bool;
  OPENMP : bool
}.

(** ** The program *)

Section Core.

Context {D : Type} {ops : DoubleOps D}.

(** What the collaborators keep outside of [struct Rebound] (the tree,
    the MPI buffers, the random seed): [boundaries_check()] and the like
    take no argument and work on it. *)
Context {Ext : Type}.

Definition Sim : Type := Rebound.struct D.

(** The state of a run: the simulation, the rest of the process and the
    calls made so far, oldest first. *)
Record World := mkWorld {
  sim : Sim;
  ext : Ext;
  trace : list Event
}.

(** A function defined outside rebound.c. *)
Definition extern := Sim -> Ext -> Sim * Ext.

Record Collaborators := {
  integrator_part1 : extern;
  integrator_part2 : extern;
  integrator_synchronize : extern;
  boundaries_check : extern;
  tree_update : extern;
  tree_update_gravity_data : extern;
  tree_prepare_essential_tree_for_gravity : extern;
  communication_mpi_distribute_particles : extern;
  communication_mpi_distribute_essential_tree_for_gravity : extern;
  gravity_calculate_acceleration : extern;
  gravity_calculate_variational_acceleration : extern;
  collisions_search : extern;
  collisions_resolve : extern;
  display : extern;
  tools_init_srand : Ext -> Ext;
  (** the code at an address, for calls through a function pointer; a call
      through [NULL] is undefined in C and is whatever [fn_code NULL] is *)
  fn_code : fnptr -> extern
}.

Variable cfg : BuildConfig.
Variable env : Collaborators.

(** [call e f]: run [f] and record [e]. *)
Definition call (e : Event) (f : extern) (w : World) : World :=
  let '(s, x) := f (sim w) (ext w) in
  mkWorld s x (trace w ++ [e]).

(** [emit e]: a call that leaves the state alone (terminal, clock). *)
Definition emit (e : Event) (w : World) : World :=
  mkWorld (sim w) (ext w) (trace w ++ [e]).

(** [invoke e field]: the call [r->field(r)], the pointer read when the
    call is made. *)
Definition invoke (e : Event) (field : Sim -> fnptr) (w : World) : World :=
  call e (fn_code env (field (sim w))) w.

(** An assignment to a field of [*r]. *)
Definition assign (f : Sim -> Sim) (w : World) : World :=
  mkWorld (f (sim w)) (ext w) (trace w).

Definition andThen (f g : World -> World) : World -> World :=
  fun w => g (f w).

(** [if (test) { body }] on the current [*r]. *)
Definition when (test : Sim -> bool) (body : World -> World) : World -> World :=
  fun w => if test (sim w) then body w else w.

(** [#ifdef] and [#ifndef]. *)
Definition ifdef (symbol : bool) (body : World -> World) : World -> World :=
  if symbol then body else (fun w => w).

Definition ifndef (symbol : bool) (body : World -> World) : World -> World :=
  ifdef (negb symbol) body.

Notation "f ;; g" := (andThen f g) (at level 61, right associativity).

(** *** [rebound_step] (lines 61-132) *)

(** Lines 110-114: the hook block after [integrator_part2]. *)
Definition step_post_timestep_modifications : World -> World :=
  when (fun r => is_set (Rebound.post_timestep_modifications r))
    (call EvIntegratorSynchronize (integrator_synchronize env) ;;
     invoke EvPostTimestepModifications Rebound.post_timestep_modifications ;;
     assign (fun r => Rebound.set_ri_whfast
               (WHFast.set_recalculate_jacobi_this_timestep 1 (Rebound.ri_whfast r)) r)).

(** Lines 118-131: collisions, compiled unless COLLISIONS_NONE is defined. *)
Definition step_collisions : World -> World :=
  ifndef (COLLISIONS_NONE cfg)
    (call EvBoundariesCheck (boundaries_check env) ;;
     call EvCollisionsSearch (collisions_search env) ;;
     call EvCollisionsResolve (collisions_resolve env)).

(** Lines 76-96: tree and exchange maintenance. *)
Definition step_tree : World -> World :=
  ifdef (TREE cfg) (call EvTreeUpdate (tree_update env)) ;;
  ifdef (MPI cfg)
    (call EvMpiDistributeParticles (communication_mpi_distribute_particles env)) ;;
  ifdef (GRAVITY_TREE cfg)
    (call EvTreeUpdateGravityData (tree_update_gravity_data env) ;;
     ifdef (MPI cfg)
       (call EvTreePrepareEssentialTree (tree_prepare_essential_tree_for_gravity env) ;;
        call EvMpiDistributeEssentialTree
          (communication_mpi_distribute_essential_tree_for_gravity env))).

(** Lines 99-104: accelerations. *)
Definition step_forces : World -> World :=
  call EvGravity (gravity_calculate_acceleration env) ;;
  when (fun r => negb (Rebound.N_megno r =? 0))
    (call EvGravityVariational (gravity_calculate_variational_acceleration env)) ;;
  when (fun r => is_set (Rebound.additional_forces r))
    (invoke EvAdditionalForces Rebound.additional_forces).

Definition rebound_step : World -> World :=
  call EvIntegratorPart1 (integrator_part1 env) ;;
  call EvBoundariesCheck (boundaries_check env) ;;
  step_tree ;;
  step_forces ;;
  call EvIntegratorPart2 (integrator_part2 env) ;;
  step_post_timestep_modifications ;;
  step_collisions.

(** The state at three points of a step: after [integrator_part2] (line
    109), and where lines 100 and 104 read [N_megno] and
    [additional_forces]. *)
Definition before_forces : World -> World :=
  call EvIntegratorPart1 (integrator_part1 env) ;;
  call EvBoundariesCheck (boundaries_check env) ;;
  step_tree.

Definition after_gravity : World -> World :=
  before_forces ;; call EvGravity (gravity_calculate_acceleration env).

Definition after_variational : World -> World :=
  after_gravity ;;
  when (fun r => negb (Rebound.N_megno r =? 0))
    (call EvGravityVariational (gravity_calculate_variational_acceleration env)).

Definition after_part2 : World -> World :=
  before_forces ;; step_forces ;; call EvIntegratorPart2 (integrator_part2 env).

(** The calls of each block, by what the build defines and what the
    tests of lines 100, 104 and 110 find. *)
Definition tree_events : list Event :=
  (if TREE cfg then [EvTreeUpdate] else [])
  ++ (if MPI cfg then [EvMpiDistributeParticles] else [])
  ++ (if GRAVITY_TREE cfg then
        EvTreeUpdateGravityData
        :: (if MPI cfg then [EvTreePrepareEssentialTree; EvMpiDistributeEssentialTree]
            else [])
      else []).

Definition force_events (megno forces : bool) : list Event :=
  [EvGravity]
  ++ (if megno then [EvGravityVariational] else [])
  ++ (if forces then [EvAdditionalForces] else []).

Definition hook_events (registered : bool) : list Event :=
  if registered then [EvIntegratorSynchronize; EvPostTimestepModifications] else [].

Definition collision_events : list Event :=
  if COLLISIONS_NONE cfg then []
  else [EvBoundariesCheck; EvCollisionsSearch; EvCollisionsResolve].

(** *** [rebound_init] (lines 134-219) *)

(** Lines 142-187: the fields of the fresh [calloc]ed struct.  The
    allocation is taken to succeed. *)
Definition init_fields : Sim :=
  Rebound.mk
    (dlit 0 0)                (* t *)
    (dlit 1 0)                (* G *)
    (dlit 0 0)                (* softening *)
    (dlit 1 (-3))             (* dt = 0.001 *)
    (dlit (-1) 0)             (* boxsize *)
    (dlit (-1) 0)             (* boxsize_x *)
    (dlit (-1) 0)             (* boxsize_y *)
    (dlit (-1) 0)             (* boxsize_z *)
    (dlit (-1) 0)             (* boxsize_max *)
    1 1 1 1                   (* root_nx, root_ny, root_nz, root_n *)
    0                         (* N *)
    0                         (* Nmax *)
    (-1)                      (* N_active *)
    0                         (* N_megno *)
    0                         (* exit_simulation *)
    0                         (* exact_finish_time *)
    []                        (* particles = NULL *)
    IAS15                     (* integrator *)
    0                         (* force_is_velocitydependent *)
    NULL NULL NULL NULL       (* additional_forces, finished, post_timestep,
                                 post_timestep_modifications *)
    (WHFast.mk 0 1 0 1 0 0 0)
    (IAS15.mk (dlit 1 (-9)) (dlit 0 0) 1 0).

(** Line 189: the test that guards [exit(-1)]. *)
Definition root_boxes_invalid (r : Sim) : bool :=
  (Rebound.root_nx r <=? 0) || (Rebound.root_ny r <=? 0) || (Rebound.root_nz r <=? 0).

(** How [rebound_init] ends: the process exits, or the struct is returned. *)
Inductive InitResult :=
| InitExit (code : Z)
| InitOk (r : Sim).

(** Lines 189-218, from the struct as it stands at the test. *)
Definition init_validate (r : Sim) (tr : list Event) : InitResult * list Event :=
  if root_boxes_invalid r then (InitExit (-1), tr ++ [EvErrorRootBoxes])
  else
    (InitOk r,
     tr ++ [EvPrintInitialized] ++ (if OPENMP cfg then [EvPrintOpenMP] else [])).

(** [rebound_init()], from the global [rebound_show_logo] and the state of
    the process. *)
Definition rebound_init (rebound_show_logo : Z) (x : Ext)
  : InitResult * Ext * list Event :=
  let tr := if rebound_show_logo =? 1 then [EvPrintLogo] else [] in
  let x := tools_init_srand env x in
  let tr := tr ++ [EvToolsInitSrand] in
  let '(res, tr) := init_validate init_fields tr in
  (res, x, tr).

(** *** [rebound_integrate] (lines 221-297) *)

(** The locals that the loop updates. *)
Record Locals := mkLocals {
  dt_last_done : D;
  last_step : Z;
  ret_value : Z
}.

Section Integrate.

Variables (tmax maxR minD : D).
(** [dtsign], fixed before the loop. *)
Variable dtsign : D.

(** Lines 230 and 245: the next step would reach or pass [tmax], and
    [exact_finish_time] is 1. *)
Definition finish_test (r : Sim) : bool :=
  dge (dmul (dadd (Rebound.t r) (Rebound.dt r)) dtsign) (dmul tmax dtsign)
  && (Rebound.exact_finish_time r =? 1).

(** Line 234: the condition of the [while]. *)
Definition loop_cond (l : Locals) (r : Sim) : bool :=
  dlt (dmul (Rebound.t r) dtsign) (dmul tmax dtsign)
  && (last_step l <? 2)
  && (ret_value l =? 0)
  && (Rebound.exit_simulation r =? 0).

(** The indices [0 .. n-1] of a [for] loop; none when [n <= 0]. *)
Definition upto (n : Z) : list nat := seq 0 (Z.to_nat n).

(** Lines 260-261: the squared distance of a particle from the origin is
    over [maxR2]. *)
Definition beyond (maxR2 : D) (p : Particle.struct D) : bool :=
  let r2 := dadd (dadd (dmul (Particle.x p) (Particle.x p))
                       (dmul (Particle.y p) (Particle.y p)))
                 (dmul (Particle.z p) (Particle.z p)) in
  dgt r2 maxR2.

(** Lines 255-266: [ret] after the escape scan.  A read past the end of
    the array is undefined in C; the scan skips it. *)
Definition escape_scan (r : Sim) (ret : Z) : Z :=
  let maxR2 := dmul maxR maxR in
  let n := Rebound.N r - Rebound.N_megno r in
  fold_left
    (fun ret i =>
       match nth_error (Rebound.particles r) i with
       | Some p => if beyond maxR2 p then 2 else ret
       | None => ret
       end)
    (upto n) ret.

(** Lines 277-281: the squared distance of two particles is under
    [minD2]. *)
Definition too_close (minD2 : D) (pi pj : Particle.struct D) : bool :=
  let x := dsub (Particle.x pi) (Particle.x pj) in
  let y := dsub (Particle.y pi) (Particle.y pj) in
  let z := dsub (Particle.z pi) (Particle.z pj) in
  let r2 := dadd (dadd (dmul x x) (dmul y y)) (dmul z z) in
  dlt r2 minD2.

(** Lines 270-288: [ret] after the close-encounter scan, which visits
    the pairs [j < i < N - N_megno]; a read past the end of the array is
    skipped, as in the escape scan. *)
Definition encounter_scan (r : Sim) (ret : Z) : Z :=
  let minD2 := dmul minD minD in
  let n := Rebound.N r - Rebound.N_megno r in
  fold_left
    (fun ret i =>
       match nth_error (Rebound.particles r) i with
       | Some pi =>
           fold_left
             (fun ret j =>
                match nth_error (Rebound.particles r) j with
                | Some pj => if too_close minD2 pi pj then 3 else ret
                | None => ret
                end)
             (seq 0 i) ret
       | None => ret
       end)
    (upto n) ret.

(** Some particle of index below [N - N_megno] is beyond [maxR]: the
    escape condition. *)
Definition escape_found (r : Sim) : bool :=
  existsb
    (fun i =>
       match nth_error (Rebound.particles r) i with
       | Some p => beyond (dmul maxR maxR) p
       | None => false
       end)
    (upto (Rebound.N r - Rebound.N_megno r)).

(** Some pair [j < i] of particles of index below [N - N_megno] is closer
    than [minD]: the close-encounter condition. *)
Definition encounter_found (r : Sim) : bool :=
  existsb
    (fun i =>
       match nth_error (Rebound.particles r) i with
       | Some pi =>
           existsb
             (fun j =>
                match nth_error (Rebound.particles r) j with
                | Some pj => too_close (dmul minD minD) pi pj
                | None => false
                end)
             (seq 0 i)
       | None => false
       end)
    (upto (Rebound.N r - Rebound.N_megno r)).

(** Lines 253-289: both scans, on the state after the step. *)
Definition monitor (r : Sim) (ret : Z) : Z :=
  let ret := if dnonzero maxR then escape_scan r ret else ret in
  if dnonzero minD then encounter_scan r ret else ret.

(** Lines 245-251: the re-check after a step. *)
Definition recheck (l : Locals) (w : World) : Locals * World :=
  if finish_test (sim w) then
    let w := call EvIntegratorSynchronize (integrator_synchronize env) w in
    let w := assign (fun r => Rebound.set_dt (dsub tmax (Rebound.t r)) r) w in
    (mkLocals (dt_last_done l) (last_step l + 1) (ret_value l), w)
  else
    (mkLocals (Rebound.dt (sim w)) (last_step l) (ret_value l), w).

(** Line 229 and line 252. *)
Definition call_post_timestep : World -> World :=
  when (fun r => is_set (Rebound.post_timestep r))
    (invoke EvPostTimestep Rebound.post_timestep).

(** Lines 239-252: from the step to the hook. *)
Definition advance (l : Locals) (w : World) : Locals * World :=
  let w := rebound_step w in
  let w := ifdef (OPENGL cfg) (call EvDisplay (display env)) w in
  let '(l, w) := recheck l w in
  (l, call_post_timestep w).

(** One pass through the body of the [while]: it returns from the
    function, or reaches the end of the body. *)
Inductive Flow :=
| Return (code : Z)
| Next (l : Locals).

Definition loop_body (l : Locals) (w : World) : Flow * World :=
  if Rebound.N (sim w) <=? 0 then (Return 1, emit EvErrorNoParticles w)
  else
    let '(l, w) := advance l w in
    (Next (mkLocals (dt_last_done l) (last_step l)
                    (monitor (sim w) (ret_value l))), w).

(** Lines 234-290.  The loop need not end (a zero [dt], an integrator
    that does not advance [t]); [fuel] bounds the number of tests of the
    condition, and [None] is a run that needs more. *)
Fixpoint integrate_loop (fuel : nat) (l : Locals) (w : World)
  : option (Flow * World) :=
  match fuel with
  | O => None
  | S fuel' =>
      if loop_cond l (sim w) then
        match loop_body l w with
        | (Return code, w') => Some (Return code, w')
        | (Next l', w') => integrate_loop fuel' l' w'
        end
      else Some (Next l, w)
  end.

(** Lines 230-233: the check before the loop. *)
Definition precheck (w : World) : Z * World :=
  if finish_test (sim w) then
    (1, assign (fun r => Rebound.set_dt (dsub tmax (Rebound.t r)) r) w)
  else (0, w).

(** Lines 291-296: after the loop. *)
Definition epilogue (l : Locals) (w : World) : Z * World :=
  let w := call EvIntegratorSynchronize (integrator_synchronize env) w in
  let w := assign (Rebound.set_dt (dt_last_done l)) w in
  let w := emit EvGettimeofday w in
  let w := emit EvPrintRuntime w in
  (ret_value l, w).

End Integrate.

(** Lines 222-233: what precedes the loop.  It yields [dtsign], the
    locals and the state at the first test of the loop condition. *)
Definition prologue (tmax : D) (w : World) : D * Locals * World :=
  let w := emit EvGettimeofday w in
  let dt0 := Rebound.dt (sim w) in
  let dtsign := copysign1 (Rebound.dt (sim w)) in
  let w := call_post_timestep w in
  let '(marks, w) := precheck tmax dtsign w in
  (dtsign, mkLocals dt0 marks 0, w).

(** [rebound_integrate(r, tmax, maxR, minD)]: the value returned and the
    state left, or [None] when [fuel] tests of the loop condition are not
    enough. *)
Definition rebound_integrate (fuel : nat) (tmax maxR minD : D) (w : World)
  : option (Z * World) :=
  let '(dtsign, l0, w0) := prologue tmax w in
  match integrate_loop tmax maxR minD dtsign fuel l0 w0 with
  | None => None
  | Some (Return code, w') => Some (code, w')
  | Some (Next l, w') => Some (epilogue l w')
  end.

(** [passes k l w]: the locals and the state after [k] complete passes
    through the body of the loop from [(l, w)]; [None] when the loop ends
    or returns before. *)
Fixpoint passes (tmax maxR minD dtsign : D) (k : nat) (l : Locals) (w : World)
  : option (Locals * World) :=
  match k with
  | O => Some (l, w)
  | S k' =>
      if loop_cond tmax dtsign l (sim w) then
        match loop_body tmax maxR minD dtsign l w with
        | (Return _, _) => None
        | (Next l', w') => passes tmax maxR minD dtsign k' l' w'
        end
      else None
  end.

(** Where the final-step marks stand with respect to [tmax]: with one
    mark, [dt] is the truncated step [tmax - t], or the time is [tmax]
    already; with two marks the time is [tmax]. *)
Definition landing (tmax : D) (l : Locals) (r : Sim) : Prop :=
  (last_step l = 1 ->
   Rebound.dt r = dsub tmax (Rebound.t r) \/ Rebound.t r = tmax)
  /\ (last_step l = 2 -> Rebound.t r = tmax).

(** What some properties ask of the collaborators: a call leaves [t], or
    [dt], as it found it; a whole step advances [t] by the [dt] it
    started with (the guarantee of the integrator backends). *)
Definition keeps_time (f : extern) : Prop :=
  forall r x, Rebound.t (fst (f r x)) = Rebound.t r.

Definition keeps_dt (f : extern) : Prop :=
  forall r x, Rebound.dt (fst (f r x)) = Rebound.dt r.

Definition step_advances_time : Prop :=
  forall w, Rebound.t (sim (rebound_step w))
            = dadd (Rebound.t (sim w)) (Rebound.dt (sim w)).

End Core.

Arguments World : clear implicits.
Arguments Collaborators : clear implicits.
Arguments extern : clear implicits.

(** ** A small set of collaborators

    An integrator in the manner of the symplectic one, over any
    arithmetic: [part1] leaves the state unsynchronized, [part2] advances
    [t] by [dt] and synchronizes in safe mode only, [synchronize]
    synchronizes.  The collision search writes down the synchronization
    flag it is given; every other collaborator and every callback leaves
    the state alone.  It serves to run the program on inputs. *)
Module Demo.

Section Env.

Context {D : Type} {ops : DoubleOps D}.

Definition unchanged : extern D (list Z) := fun r x => (r, x).

Definition mark_synchronized (v : Z) (r : Rebound.struct D) : Rebound.struct D :=
  Rebound.set_ri_whfast (WHFast.set_is_synchronized v (Rebound.ri_whfast r)) r.

Definition part1 : extern D (list Z) :=
  fun r x => (mark_synchronized 0 r, x).

Definition part2 : extern D (list Z) :=
  fun r x =>
    let r := Rebound.set_t (dadd (Rebound.t r) (Rebound.dt r)) r in
    (if WHFast.safe_mode (Rebound.ri_whfast r) =? 0 then r
     else mark_synchronized 1 r, x).

Definition synchronize : extern D (list Z) :=
  fun r x => (mark_synchronized 1 r, x).

Definition search : extern D (list Z) :=
  fun r x => (r, x ++ [WHFast.is_synchronized (Rebound.ri_whfast r)]).

Definition env : Collaborators D (list Z) := {|
  integrator_part1 := part1;
  integrator_part2 := part2;
  integrator_synchronize := synchronize;
  boundaries_check := unchanged;
  tree_update := unchanged;
  tree_update_gravity_data := unchanged;
  tree_prepare_essential_tree_for_gravity := unchanged;
  communication_mpi_distribute_particles := unchanged;
  communication_mpi_distribute_essential_tree_for_gravity := unchanged;
  gravity_calculate_acceleration := unchanged;
  gravity_calculate_variational_acceleration := unchanged;
  collisions_search := search;
  collisions_resolve := unchanged;
  display := unchanged;
  tools_init_srand := fun x => x;
  fn_code := fun _ => unchanged
|}.

(** A particle at rest at [(x, 0, 0)], of mass 1 and radius 0. *)
Definition particle_at (x : D) : Particle.struct D :=
  Particle.mk x (dlit 0 0) (dlit 0 0) (dlit 0 0) (dlit 0 0) (dlit 0 0)
              (dlit 1 0) (dlit 0 0).

(** The state [rebound_init] returns, then configured: time, step,
    particles, [exact_finish_time], the two hooks of the loop and the safe
    mode of the integrator. *)
Definition configured (t dt : D) (ps : list (Particle.struct D))
    (exact_finish_time : Z) (post_timestep post_timestep_modifications : fnptr)
    (safe_mode : Z) : Rebound.struct D :=
  Rebound.mk t (dlit 1 0) (dlit 0 0) dt
    (dlit (-1) 0) (dlit (-1) 0) (dlit (-1) 0) (dlit (-1) 0) (dlit (-1) 0)
    1 1 1 1
    (Z.of_nat (length ps)) (Z.of_nat (length ps)) (-1) 0
    0 exact_finish_time ps IAS15 0
    NULL NULL post_timestep post_timestep_modifications
    (WHFast.mk 0 safe_mode 0 1 0 0 0)
    (IAS15.mk (dlit 1 (-9)) (dlit 0 0) 1 0).

Definition start (r : Rebound.struct D) : World D (list Z) :=
  mkWorld r [] [].

(** The whole number [n]. *)
Definition num (n : Z) : D := dlit n 0.

(** Inputs.  One particle at distance 10 from the origin, at time 0 with
    step 1. *)
Definition escaping : World D (list Z) :=
  start (configured (num 0) (num 1) [particle_at (num 10)] 0 NULL NULL 1).

(** Two particles at the same place, at distance 10 from the origin. *)
Definition escaping_pair : World D (list Z) :=
  start (configured (num 0) (num 1)
           [particle_at (num 10); particle_at (num 10)] 0 NULL NULL 1).

(** No particle, a step of 20 and [exact_finish_time] set. *)
Definition empty_truncated : World D (list Z) :=
  start (configured (num 0) (num 20) [] 1 NULL NULL 1).

(** One particle and the integrator out of safe mode. *)
Definition unsafe : World D (list Z) :=
  start (configured (num 0) (num 1) [particle_at (num 0)] 0 NULL NULL 0).

(** The state that [rebound_init] returns. *)
Definition fresh : World D (list Z) := start init_fields.

(** One particle at time 5, with [exact_finish_time] set and a
    [post_timestep] callback at address 7. *)
Definition past_target : World D (list Z) :=
  start (configured (num 5) (num 1) [particle_at (num 0)] 1 7 NULL 1).

(** One particle at time 0 with step 0.3 and [exact_finish_time] set. *)
Definition three_tenths : World D (list Z) :=
  start (configured (num 0) (dlit 3 (-1)) [particle_at (num 0)] 1 NULL NULL 1).

(** One particle at time -1 with step 0.75 and [exact_finish_time] set. *)
Definition crossing_zero : World D (list Z) :=
  start (configured (num (-1)) (dlit 75 (-2)) [particle_at (num 0)] 1 NULL NULL 1).

(** What a run leaves to look at: the code returned, [t], [dt], the flags
    seen by the collision search and the calls made. *)
Definition summary (run : option (Z * World D (list Z)))
  : option (Z * D * D * list Z * list Event) :=
  option_map
    (fun p => (fst p, Rebound.t (sim (snd p)), Rebound.dt (sim (snd p)),
               ext (snd p), trace (snd p)))
    run.

End Env.

(** A build with none of the optional subsystems but collisions, and the
    same without collisions. *)
Definition plain : BuildConfig :=
  {| TREE := false; MPI := false; GRAVITY_TREE := false;
     COLLISIONS_NONE := false; OPENGL := false; OPENMP := false |}.

Definition no_collisions : BuildConfig :=
  {| TREE := false; MPI := false; GRAVITY_TREE := false;
     COLLISIONS_NONE := true; OPENGL := false; OPENMP := false |}.

End Demo.

(** ** What the collaborators may be asked to keep

    The controller writes two fields of the struct and no other: [dt],
    and [ri_whfast.recalculate_jacobi_this_timestep].  The rest of what a
    run does to the struct is done by the collaborators. *)

Section Frames.

Context {D : Type} {ops : DoubleOps D} {Ext : Type}.

(** The functions of [env] that [rebound_step] and [rebound_integrate]
    call by name. *)
Definition externs (env : Collaborators D Ext) : list (extern D Ext) :=
  [integrator_part1 env; integrator_part2 env; integrator_synchronize env;
   boundaries_check env; tree_update env; tree_update_gravity_data env;
   tree_prepare_essential_tree_for_gravity env;
   communication_mpi_distribute_particles env;
   communication_mpi_distribute_essential_tree_for_gravity env;
   gravity_calculate_acceleration env;
   gravity_calculate_variational_acceleration env;
   collisions_search env; collisions_resolve env; display env].

(** A call of [f] keeps the property [P] of the struct. *)
Definition preserved_by (P : Rebound.struct D -> Prop) (f : extern D Ext) : Prop :=
  forall r x, P r -> P (fst (f r x)).

(** Every collaborator and every callback keeps [P]. *)
Definition env_preserves (env : Collaborators D Ext)
    (P : Rebound.struct D -> Prop) : Prop :=
  Forall (preserved_by P) (externs env)
  /\ (forall p, preserved_by P (fn_code env p)).

(** [P] does not look at the one, or the other, of the two fields that
    the controller writes. *)
Definition blind_to_flag (P : Rebound.struct D -> Prop) : Prop :=
  forall r,
    P r ->
    P (Rebound.set_ri_whfast
         (WHFast.set_recalculate_jacobi_this_timestep 1 (Rebound.ri_whfast r)) r).

Definition blind_to_dt (P : Rebound.struct D -> Prop) : Prop :=
  forall v r, P r -> P (Rebound.set_dt v r).

(** A whole step leaves [dt] as it found it (a fixed-step integrator). *)
Definition step_keeps_dt (cfg : BuildConfig) (env : Collaborators D Ext) : Prop :=
  forall w, Rebound.dt (sim (rebound_step cfg env w)) = Rebound.dt (sim w).

(** The struct [r'] is [r] but for the particles of index [n] and above:
    the same counts, and the same first [n] particles. *)
Definition same_monitored (n : nat) (r r' : Rebound.struct D) : Prop :=
  Z.to_nat (Rebound.N r - Rebound.N_megno r) = n
  /\ Z.to_nat (Rebound.N r' - Rebound.N_megno r') = n
  /\ firstn n (Rebound.particles r) = firstn n (Rebound.particles r').

(** The collaborators of a fixed-step run: a step advances [t] by [dt]
    and keeps [dt]; the synchronization, the display and the callbacks
    leave [t] and [dt] alone. *)
Definition fixed_step (cfg : BuildConfig) (env : Collaborators D Ext) : Prop :=
  step_advances_time cfg env
  /\ step_keeps_dt cfg env
  /\ keeps_time (integrator_synchronize env)
  /\ (keeps_time (display env) /\ keeps_dt (display env))
  /\ (forall p, keeps_time (fn_code env p) /\ keeps_dt (fn_code env p)).

(** A struct on which the loop goes on: it has particles, no request to
    exit, and [exact_finish_time] is 1, or is not, as [exact] says. *)
Definition running (exact : bool) (r : Rebound.struct D) : Prop :=
  0 < Rebound.N r
  /\ Rebound.exit_simulation r = 0
  /\ (Rebound.exact_finish_time r =? 1) = exact.

(** How many times the event [e] stands in a trace. *)
Definition calls_of (e : Event) (tr : list Event) : nat :=
  length (filter (Event_eqb e) tr).

End Frames.

(** ** More inputs

    States with variational particles, with a request to exit, and
    collaborators whose callbacks ask to exit or set the time back. *)
Module Cases.

Section Inputs.

Context {D : Type} {ops : DoubleOps D}.

Definition set_exit_simulation (v : Z) (s : Rebound.struct D) : Rebound.struct D :=
  Rebound.mk (Rebound.t s) (Rebound.G s) (Rebound.softening s) (Rebound.dt s)
    (Rebound.boxsize s) (Rebound.boxsize_x s) (Rebound.boxsize_y s)
    (Rebound.boxsize_z s) (Rebound.boxsize_max s) (Rebound.root_nx s)
    (Rebound.root_ny s) (Rebound.root_nz s) (Rebound.root_n s) (Rebound.N s)
    (Rebound.Nmax s) (Rebound.N_active s) (Rebound.N_megno s) v
    (Rebound.exact_finish_time s) (Rebound.particles s) (Rebound.integrator s)
    (Rebound.force_is_velocitydependent s) (Rebound.additional_forces s)
    (Rebound.finished s) (Rebound.post_timestep s)
    (Rebound.post_timestep_modifications s) (Rebound.ri_whfast s)
    (Rebound.ri_ias15 s).

(** The collaborators of [Demo], with callbacks that set
    [exit_simulation]. *)
Definition stopping_env : Collaborators D (list Z) := {|
  integrator_part1 := integrator_part1 Demo.env;
  integrator_part2 := integrator_part2 Demo.env;
  integrator_synchronize := integrator_synchronize Demo.env;
  boundaries_check := boundaries_check Demo.env;
  tree_update := tree_update Demo.env;
  tree_update_gravity_data := tree_update_gravity_data Demo.env;
  tree_prepare_essential_tree_for_gravity :=
    tree_prepare_essential_tree_for_gravity Demo.env;
  communication_mpi_distribute_particles :=
    communication_mpi_distribute_particles Demo.env;
  communication_mpi_distribute_essential_tree_for_gravity :=
    communication_mpi_distribute_essential_tree_for_gravity Demo.env;
  gravity_calculate_acceleration := gravity_calculate_acceleration Demo.env;
  gravity_calculate_variational_acceleration :=
    gravity_calculate_variational_acceleration Demo.env;
  collisions_search := collisions_search Demo.env;
  collisions_resolve := collisions_resolve Demo.env;
  display := display Demo.env;
  tools_init_srand := tools_init_srand Demo.env;
  fn_code := fun _ r x => (set_exit_simulation 1 r, x)
|}.

(** The collaborators of [Demo], with callbacks that set the time back
    to 0 once it is 5 or more. *)
Definition rewinding_env : Collaborators D (list Z) := {|
  integrator_part1 := integrator_part1 Demo.env;
  integrator_part2 := integrator_part2 Demo.env;
  integrator_synchronize := integrator_synchronize Demo.env;
  boundaries_check := boundaries_check Demo.env;
  tree_update := tree_update Demo.env;
  tree_update_gravity_data := tree_update_gravity_data Demo.env;
  tree_prepare_essential_tree_for_gravity :=
    tree_prepare_essential_tree_for_gravity Demo.env;
  communication_mpi_distribute_particles :=
    communication_mpi_distribute_particles Demo.env;
  communication_mpi_distribute_essential_tree_for_gravity :=
    communication_mpi_distribute_essential_tree_for_gravity Demo.env;
  gravity_calculate_acceleration := gravity_calculate_acceleration Demo.env;
  gravity_calculate_variational_acceleration :=
    gravity_calculate_variational_acceleration Demo.env;
  collisions_search := collisions_search Demo.env;
  collisions_resolve := collisions_resolve Demo.env;
  display := display Demo.env;
  tools_init_srand := tools_init_srand Demo.env;
  fn_code := fun _ r x =>
    (if dlt (Rebound.t r) (Demo.num 5) then r
     else Rebound.set_t (Demo.num 0) r, x)
|}.

(** A state at time [t] with step [dt]: the particles [ps], of which the
    last [N_megno] are variational, the flags [exit_simulation] and
    [exact_finish_time], and the [post_timestep] callback. *)
Definition state (t dt : D) (ps : list (Particle.struct D))
    (N_megno exit_simulation exact_finish_time : Z) (post_timestep : fnptr)
  : Rebound.struct D :=
  Rebound.mk t (dlit 1 0) (dlit 0 0) dt
    (dlit (-1) 0) (dlit (-1) 0) (dlit (-1) 0) (dlit (-1) 0) (dlit (-1) 0)
    1 1 1 1
    (Z.of_nat (length ps)) (Z.of_nat (length ps)) (-1) N_megno
    exit_simulation exact_finish_time ps IAS15 0
    NULL NULL post_timestep NULL
    (WHFast.mk 0 1 0 1 0 0 0)
    (IAS15.mk (dlit 1 (-9)) (dlit 0 0) 1 0).

(** One particle, and a request to exit already made. *)
Definition cancelled : World D (list Z) :=
  Demo.start (state (Demo.num 0) (Demo.num 1) [Demo.particle_at (Demo.num 0)]
                0 1 0 NULL).

(** One particle and a [post_timestep] callback at address 7. *)
Definition hooked : World D (list Z) :=
  Demo.start (state (Demo.num 0) (Demo.num 1) [Demo.particle_at (Demo.num 0)]
                0 0 0 7).

(** One particle at the origin and a variational particle at [v]. *)
Definition with_variational (v : D) : Rebound.struct D :=
  state (Demo.num 0) (Demo.num 1)
    [Demo.particle_at (Demo.num 0); Demo.particle_at v] 1 0 0 NULL.

(** One particle and a [post_timestep_modifications] callback at
    address 7. *)
Definition modified : World D (list Z) :=
  Demo.start (Demo.configured (Demo.num 0) (Demo.num 1)
                [Demo.particle_at (Demo.num 0)] 0 NULL 7 1).

(** One particle at time 0 with step 0.3, [exact_finish_time] off. *)
Definition plain_three_tenths : World D (list Z) :=
  Demo.start (state (Demo.num 0) (dlit 3 (-1)) [Demo.particle_at (Demo.num 0)]
                0 0 0 NULL).

(** One particle at time 1e16 with step 1, [exact_finish_time] off. *)
Definition absorbed : World D (list Z) :=
  Demo.start (state (dlit 1 16) (Demo.num 1) [Demo.particle_at (Demo.num 0)]
                0 0 0 NULL).

End Inputs.

End Cases.

(** ** Properties *)

Section Properties.

Context {D : Type} {ops : DoubleOps D} {Ext : Type}.
Variable cfg : BuildConfig.
Variable env : Collaborators D Ext.

(** *** Traces of the building blocks *)

Lemma trace_call (e : Event) (f : extern D Ext) (w : World D Ext) :
  trace (call e f w) = trace w ++ [e].
Proof. unfold call. destruct (f (sim w) (ext w)). reflexivity. Qed.

Lemma sim_call (e : Event) (f : extern D Ext) (w : World D Ext) :
  sim (call e f w) = fst (f (sim w) (ext w)).
Proof. unfold call. destruct (f (sim w) (ext w)). reflexivity. Qed.

Lemma ext_call (e : Event) (f : extern D Ext) (w : World D Ext) :
  ext (call e f w) = snd (f (sim w) (ext w)).
Proof. unfold call. destruct (f (sim w) (ext w)). reflexivity. Qed.

Lemma trace_invoke (e : Event) (field : Rebound.struct D -> fnptr) (w : World D Ext) :
  trace (invoke env e field w) = trace w ++ [e].
Proof. unfold invoke. apply trace_call. Qed.

Lemma trace_when (test : Rebound.struct D -> bool) (body : World D Ext -> World D Ext)
    (evs : list Event) (w : World D Ext) :
  (forall w', trace (body w') = trace w' ++ evs) ->
  trace (when test body w) = trace w ++ (if test (sim w) then evs else []).
Proof.
  intros Hbody. unfold when. destruct (test (sim w)).
  - apply Hbody.
  - now rewrite app_nil_r.
Qed.

Lemma trace_step_tree (w : World D Ext) :
  trace (step_tree cfg env w) = trace w ++ tree_events cfg.
Proof.
  unfold step_tree, tree_events, andThen, ifdef.
  destruct (TREE cfg), (MPI cfg), (GRAVITY_TREE cfg);
    repeat rewrite trace_call; repeat rewrite <- app_assoc;
    simpl; try rewrite app_nil_r; reflexivity.
Qed.

Lemma trace_step_forces (w : World D Ext) :
  let g := call EvGravity (gravity_calculate_acceleration env) w in
  let v := when (fun r => negb (Rebound.N_megno r =? 0))
             (call EvGravityVariational
                (gravity_calculate_variational_acceleration env)) g in
  trace (step_forces env w)
  = trace w ++ force_events (negb (Rebound.N_megno (sim g) =? 0))
                            (is_set (Rebound.additional_forces (sim v))).
Proof.
  intros g v. unfold step_forces, andThen. fold g. fold v.
  rewrite (trace_when _ _ [EvAdditionalForces]) by (intros; apply trace_invoke).
  unfold v at 1.
  rewrite (trace_when _ _ [EvGravityVariational]) by (intros; apply trace_call).
  unfold g at 1. rewrite trace_call. unfold force_events.
  repeat rewrite <- app_assoc. reflexivity.
Qed.

Lemma trace_step_post_timestep_modifications (w : World D Ext) :
  trace (step_post_timestep_modifications env w)
  = trace w ++ hook_events (is_set (Rebound.post_timestep_modifications (sim w))).
Proof.
  unfold step_post_timestep_modifications, hook_events.
  apply trace_when. intros w'. unfold andThen, assign. simpl.
  rewrite trace_invoke, trace_call, <- app_assoc. reflexivity.
Qed.

Lemma trace_step_collisions (w : World D Ext) :
  trace (step_collisions cfg env w) = trace w ++ collision_events cfg.
Proof.
  unfold step_collisions, collision_events, ifndef, ifdef, andThen.
  destruct (COLLISIONS_NONE cfg); simpl.
  - now rewrite app_nil_r.
  - repeat rewrite trace_call. repeat rewrite <- app_assoc. reflexivity.
Qed.

Lemma trace_before_forces (w : World D Ext) :
  trace (before_forces cfg env w)
  = trace w ++ [EvIntegratorPart1; EvBoundariesCheck] ++ tree_events cfg.
Proof.
  unfold before_forces, andThen.
  rewrite trace_step_tree, !trace_call, <- !app_assoc. reflexivity.
Qed.

Lemma trace_after_part2 (w : World D Ext) :
  trace (after_part2 cfg env w)
  = trace w
    ++ [EvIntegratorPart1; EvBoundariesCheck]
    ++ tree_events cfg
    ++ force_events
         (negb (Rebound.N_megno (sim (after_gravity cfg env w)) =? 0))
         (is_set (Rebound.additional_forces (sim (after_variational cfg env w))))
    ++ [EvIntegratorPart2].
Proof.
  unfold after_part2, andThen.
  rewrite trace_call, trace_step_forces, trace_before_forces.
  unfold after_variational, after_gravity, andThen.
  rewrite <- !app_assoc. reflexivity.
Qed.

Lemma rebound_step_blocks (w : World D Ext) :
  rebound_step cfg env w
  = step_collisions cfg env
      (step_post_timestep_modifications env (after_part2 cfg env w)).
Proof. reflexivity. Qed.

Lemma skipn_length_app (A : Type) (l l' : list A) :
  skipn (length l) (l ++ l') = l'.
Proof. induction l; simpl; auto. Qed.

Lemma step_post_timestep_modifications_unfold (w : World D Ext) :
  step_post_timestep_modifications env w
  = if is_set (Rebound.post_timestep_modifications (sim w)) then
      assign
        (fun r => Rebound.set_ri_whfast
           (WHFast.set_recalculate_jacobi_this_timestep 1 (Rebound.ri_whfast r)) r)
        (invoke env EvPostTimestepModifications Rebound.post_timestep_modifications
           (call EvIntegratorSynchronize (integrator_synchronize env) w))
    else w.
Proof. reflexivity. Qed.

(** *** The order of a step *)

(** C7 (amended).  [rebound_step] makes its calls in this order:
    [integrator_part1], [boundaries_check], the tree and exchange calls
    of the build, [gravity_calculate_acceleration], the variational
    accelerations when [N_megno] is not zero, the [additional_forces]
    callback when it is set, [integrator_part2], then, only when
    [post_timestep_modifications] is set, [integrator_synchronize]
    followed by the callback, after which
    [recalculate_jacobi_this_timestep] is set to 1; and last, only in a
    build that does not define COLLISIONS_NONE, a second
    [boundaries_check], [collisions_search] and [collisions_resolve]. *)
Theorem rebound_step_order (w : World D Ext) :
  let megno := negb (Rebound.N_megno (sim (after_gravity cfg env w)) =? 0) in
  let forces :=
    is_set (Rebound.additional_forces (sim (after_variational cfg env w))) in
  let w2 := after_part2 cfg env w in
  let registered := is_set (Rebound.post_timestep_modifications (sim w2)) in
  trace (rebound_step cfg env w)
  = trace w
    ++ [EvIntegratorPart1; EvBoundariesCheck]
    ++ tree_events cfg
    ++ force_events megno forces
    ++ [EvIntegratorPart2]
    ++ hook_events registered
    ++ collision_events cfg
  /\ rebound_step cfg env w
     = step_collisions cfg env
         (if registered then
            assign
              (fun r => Rebound.set_ri_whfast
                 (WHFast.set_recalculate_jacobi_this_timestep 1
                    (Rebound.ri_whfast r)) r)
              (invoke env EvPostTimestepModifications
                 Rebound.post_timestep_modifications
                 (call EvIntegratorSynchronize (integrator_synchronize env) w2))
          else w2).
Proof.
  intros megno forces w2 registered. split.
  - rewrite rebound_step_blocks, trace_step_collisions,
      trace_step_post_timestep_modifications, trace_after_part2.
    fold megno forces w2 registered. rewrite <- !app_assoc. reflexivity.
  - rewrite rebound_step_blocks, step_post_timestep_modifications_unfold.
    reflexivity.
Qed.

(** *** Synchronization within a step *)

Lemma no_synchronize_in_forces (a b : bool) :
  existsb (Event_eqb EvIntegratorSynchronize) (force_events a b) = false.
Proof. destruct a, b; reflexivity. Qed.

Lemma no_synchronize_in_tree :
  existsb (Event_eqb EvIntegratorSynchronize) (tree_events cfg) = false.
Proof.
  unfold tree_events. destruct (TREE cfg), (MPI cfg), (GRAVITY_TREE cfg); reflexivity.
Qed.

Lemma no_synchronize_in_collisions :
  existsb (Event_eqb EvIntegratorSynchronize) (collision_events cfg) = false.
Proof. unfold collision_events. destruct (COLLISIONS_NONE cfg); reflexivity. Qed.

(** C4 (amended).  Within one [rebound_step], [integrator_synchronize] is
    called exactly when a [post_timestep_modifications] callback is set
    after [integrator_part2], and then immediately before the callback,
    which receives the synchronized state.  The collision block follows
    the callback block; when no callback is set it receives the state as
    [integrator_part2] left it, and the step calls no synchronization. *)
Theorem synchronization_in_step (w : World D Ext) :
  let w2 := after_part2 cfg env w in
  let registered := is_set (Rebound.post_timestep_modifications (sim w2)) in
  trace (rebound_step cfg env w)
  = trace w2 ++ hook_events registered ++ collision_events cfg
  /\ existsb (Event_eqb EvIntegratorSynchronize)
       (skipn (length (trace w)) (trace (rebound_step cfg env w)))
     = registered
  /\ rebound_step cfg env w
     = step_collisions cfg env
         (if registered then
            assign
              (fun r => Rebound.set_ri_whfast
                 (WHFast.set_recalculate_jacobi_this_timestep 1
                    (Rebound.ri_whfast r)) r)
              (invoke env EvPostTimestepModifications
                 Rebound.post_timestep_modifications
                 (call EvIntegratorSynchronize (integrator_synchronize env) w2))
          else w2).
Proof.
  intros w2 registered. split; [| split].
  - rewrite rebound_step_blocks, trace_step_collisions,
      trace_step_post_timestep_modifications.
    fold w2 registered. rewrite <- app_assoc. reflexivity.
  - rewrite rebound_step_blocks, trace_step_collisions,
      trace_step_post_timestep_modifications, trace_after_part2.
    fold w2 registered. rewrite <- !app_assoc. rewrite skipn_length_app.
    rewrite !existsb_app, no_synchronize_in_tree, no_synchronize_in_forces,
      no_synchronize_in_collisions.
    destruct registered; reflexivity.
  - rewrite rebound_step_blocks, step_post_timestep_modifications_unfold.
    reflexivity.
Qed.

(** *** Initialization *)

(** C8.  [rebound_init] returns a struct with [t = 0], [G = 1],
    [softening = 0], [dt = 0.001], one root box in each axis, no
    particle, [N_active = -1], the [IAS15] integrator, the four callbacks
    unset, and the symplectic scratch in safe mode and synchronized. *)
Theorem rebound_init_defaults (rebound_show_logo : Z) (x : Ext) :
  let r : Rebound.struct D := init_fields in
  fst (fst (rebound_init cfg env rebound_show_logo x)) = InitOk r
  /\ Rebound.t r = dlit 0 0
  /\ Rebound.G r = dlit 1 0
  /\ Rebound.softening r = dlit 0 0
  /\ Rebound.dt r = dlit 1 (-3)
  /\ (Rebound.root_nx r = 1 /\ Rebound.root_ny r = 1 /\ Rebound.root_nz r = 1)
  /\ (Rebound.N r = 0 /\ Rebound.particles r = [])
  /\ Rebound.N_active r = -1
  /\ Rebound.integrator r = IAS15
  /\ (Rebound.additional_forces r = NULL
      /\ Rebound.finished r = NULL
      /\ Rebound.post_timestep r = NULL
      /\ Rebound.post_timestep_modifications r = NULL)
  /\ WHFast.safe_mode (Rebound.ri_whfast r) = 1
  /\ WHFast.is_synchronized (Rebound.ri_whfast r) = 1.
Proof.
  intros r. unfold rebound_init, init_validate. simpl.
  repeat split; reflexivity.
Qed.

Lemma root_boxes_invalid_iff (r : Rebound.struct D) :
  root_boxes_invalid r = true
  <-> (Rebound.root_nx r <= 0 \/ Rebound.root_ny r <= 0 \/ Rebound.root_nz r <= 0).
Proof.
  unfold root_boxes_invalid. rewrite !orb_true_iff, !Z.leb_le. tauto.
Qed.

(** C9.  The validation of [rebound_init] exits the process with the
    root-box error exactly when one of [root_nx], [root_ny], [root_nz] is
    at most 0, and returns the struct exactly when each is at least 1;
    [rebound_init] applies it to the struct it has just filled, so that
    its fatal branch is taken exactly when one of the three counts is at
    most 0 at the test. *)
Theorem root_box_validation (r : Rebound.struct D) (tr : list Event)
    (rebound_show_logo : Z) (x : Ext) :
  (init_validate cfg r tr = (InitExit (-1), tr ++ [EvErrorRootBoxes])
   <-> (Rebound.root_nx r <= 0 \/ Rebound.root_ny r <= 0 \/ Rebound.root_nz r <= 0))
  /\ ((exists tr', init_validate cfg r tr = (InitOk r, tr'))
      <-> (1 <= Rebound.root_nx r /\ 1 <= Rebound.root_ny r /\ 1 <= Rebound.root_nz r))
  /\ fst (rebound_init cfg env rebound_show_logo x)
     = (fst (init_validate cfg init_fields
               ((if rebound_show_logo =? 1 then [EvPrintLogo] else [])
                ++ [EvToolsInitSrand])),
        tools_init_srand env x)
  /\ (fst (fst (rebound_init cfg env rebound_show_logo x)) = InitExit (-1)
      <-> (Rebound.root_nx (@init_fields D ops) <= 0
           \/ Rebound.root_ny (@init_fields D ops) <= 0
           \/ Rebound.root_nz (@init_fields D ops) <= 0)).
Proof.
  assert (Hfalse : root_boxes_invalid r = false
                   <-> (1 <= Rebound.root_nx r /\ 1 <= Rebound.root_ny r
                        /\ 1 <= Rebound.root_nz r)).
  { unfold root_boxes_invalid. rewrite !orb_false_iff, !Z.leb_gt. lia. }
  split; [| split; [| split]].
  - rewrite <- root_boxes_invalid_iff. unfold init_validate.
    destruct (root_boxes_invalid r); split; intros H;
      [reflexivity | reflexivity | discriminate H | discriminate H].
  - rewrite <- Hfalse. unfold init_validate.
    destruct (root_boxes_invalid r); split.
    + intros [tr' H]. discriminate H.
    + intros H. discriminate H.
    + reflexivity.
    + intros _. eexists. reflexivity.
  - unfold rebound_init.
    destruct (init_validate cfg init_fields _). reflexivity.
  - split.
    + intros H. discriminate H.
    + simpl. intros H. lia.
Qed.

(** *** The two scans *)

Lemma escape_scan_found (maxR : D) (r : Rebound.struct D) (ret : Z) :
  escape_scan maxR r ret = if escape_found maxR r then 2 else ret.
Proof.
  unfold escape_scan, escape_found.
  generalize (upto (Rebound.N r - Rebound.N_megno r)) as idx.
  intros idx. revert ret.
  induction idx as [| i idx IH]; intros ret; simpl.
  - reflexivity.
  - rewrite IH.
    destruct (nth_error (Rebound.particles r) i) as [p |]; simpl.
    + destruct (beyond (dmul maxR maxR) p); simpl; [| reflexivity].
      now destruct (existsb _ idx).
    + reflexivity.
Qed.

Lemma encounter_row_found (minD2 : D) (ps : list (Particle.struct D))
    (pi : Particle.struct D) (js : list nat) (ret : Z) :
  fold_left
    (fun ret j =>
       match nth_error ps j with
       | Some pj => if too_close minD2 pi pj then 3 else ret
       | None => ret
       end) js ret
  = if existsb
         (fun j =>
            match nth_error ps j with
            | Some pj => too_close minD2 pi pj
            | None => false
            end) js
    then 3 else ret.
Proof.
  revert ret. induction js as [| j js IH]; intros ret; simpl.
  - reflexivity.
  - rewrite IH. destruct (nth_error ps j) as [pj |]; simpl.
    + destruct (too_close minD2 pi pj); simpl; [| reflexivity].
      now destruct (existsb _ js).
    + reflexivity.
Qed.

Lemma encounter_scan_found (minD : D) (r : Rebound.struct D) (ret : Z) :
  encounter_scan minD r ret = if encounter_found minD r then 3 else ret.
Proof.
  unfold encounter_scan, encounter_found.
  generalize (upto (Rebound.N r - Rebound.N_megno r)) as idx.
  intros idx. revert ret.
  induction idx as [| i idx IH]; intros ret; simpl.
  - reflexivity.
  - rewrite IH.
    destruct (nth_error (Rebound.particles r) i) as [pi |]; simpl.
    + rewrite encounter_row_found.
      destruct (existsb _ (seq 0 i)); simpl; [| reflexivity].
      now destruct (existsb _ idx).
    + reflexivity.
Qed.

(** What the two scans leave in [ret_value]: 3 when the close-encounter
    scan runs and finds a pair, else 2 when the escape scan runs and finds
    a particle, else what it was. *)
Lemma monitor_found (maxR minD : D) (r : Rebound.struct D) (ret : Z) :
  monitor maxR minD r ret
  = if dnonzero minD && encounter_found minD r then 3
    else if dnonzero maxR && escape_found maxR r then 2
    else ret.
Proof.
  unfold monitor. rewrite escape_scan_found, encounter_scan_found.
  destruct (dnonzero minD), (dnonzero maxR), (encounter_found minD r),
    (escape_found maxR r); reflexivity.
Qed.

Lemma monitor_codes (maxR minD : D) (r : Rebound.struct D) (ret : Z) :
  ret = 0 \/ ret = 2 \/ ret = 3 ->
  monitor maxR minD r ret = 0 \/ monitor maxR minD r ret = 2
  \/ monitor maxR minD r ret = 3.
Proof.
  intros H. rewrite monitor_found.
  destruct (dnonzero minD && encounter_found minD r); [auto |].
  destruct (dnonzero maxR && escape_found maxR r); auto.
Qed.

(** *** The loop *)

Section Loop.

Variables (tmax maxR minD dtsign : D).

Local Abbreviation loop := (integrate_loop cfg env tmax maxR minD dtsign).
Local Abbreviation body := (loop_body cfg env tmax maxR minD dtsign).
Local Abbreviation cond := (loop_cond tmax dtsign).

Lemma loop_ends (fuel : nat) (l : Locals) (w : World D Ext) :
  cond l (sim w) = false -> loop (S fuel) l w = Some (Next l, w).
Proof. intros H. simpl. now rewrite H. Qed.

Lemma loop_pass (fuel : nat) (l l' : Locals) (w w' : World D Ext) :
  cond l (sim w) = true ->
  body l w = (Next l', w') ->
  loop (S fuel) l w = loop fuel l' w'.
Proof. intros Hc Hb. simpl. now rewrite Hc, Hb. Qed.

Lemma loop_abort (fuel : nat) (l : Locals) (w : World D Ext) :
  cond l (sim w) = true ->
  Rebound.N (sim w) <= 0 ->
  loop (S fuel) l w = Some (Return 1, emit EvErrorNoParticles w).
Proof.
  intros Hc HN. simpl. rewrite Hc. unfold loop_body.
  apply Z.leb_le in HN. now rewrite HN.
Qed.

Lemma cond_signal (l : Locals) (r : Rebound.struct D) :
  ret_value l <> 0 -> cond l r = false.
Proof.
  intros H. unfold loop_cond. apply Z.eqb_neq in H. rewrite H.
  now rewrite andb_false_r.
Qed.

Lemma cond_marks (l : Locals) (r : Rebound.struct D) :
  2 <= last_step l -> cond l r = false.
Proof.
  intros H. unfold loop_cond. apply Z.ltb_ge in H. rewrite H.
  now rewrite andb_false_r.
Qed.

Lemma body_next (l : Locals) (w : World D Ext) :
  0 < Rebound.N (sim w) ->
  body l w
  = (Next (mkLocals (dt_last_done (fst (advance cfg env tmax dtsign l w)))
                    (last_step (fst (advance cfg env tmax dtsign l w)))
                    (monitor maxR minD
                       (sim (snd (advance cfg env tmax dtsign l w)))
                       (ret_value (fst (advance cfg env tmax dtsign l w))))),
     snd (advance cfg env tmax dtsign l w)).
Proof.
  intros HN. unfold loop_body. apply Z.leb_gt in HN. rewrite HN.
  now destruct (advance cfg env tmax dtsign l w).
Qed.

Lemma passes_loop (k fuel : nat) (l l' : Locals) (w w' : World D Ext) :
  passes cfg env tmax maxR minD dtsign k l w = Some (l', w') ->
  loop (k + fuel) l w = loop fuel l' w'.
Proof.
  revert l w. induction k as [| k IH]; intros l w H; simpl in *.
  - now inversion H.
  - destruct (cond l (sim w)); [| discriminate H].
    destruct (body l w) as [[code | l1] w1]; [discriminate H |].
    now apply IH.
Qed.

(** A run of the loop is a number of complete passes, followed by the
    failure of the condition or by the return from inside the body. *)
Lemma loop_next_passes (fuel : nat) (l l' : Locals) (w w' : World D Ext) :
  loop fuel l w = Some (Next l', w') ->
  exists k, passes cfg env tmax maxR minD dtsign k l w = Some (l', w')
            /\ cond l' (sim w') = false.
Proof.
  revert l w. induction fuel as [| fuel IH]; intros l w H; simpl in H.
  - discriminate H.
  - destruct (cond l (sim w)) eqn:Hc.
    + destruct (body l w) as [[code | l1] w1] eqn:Hb; [discriminate H |].
      destruct (IH _ _ H) as [k [Hk Hend]].
      exists (S k). simpl. now rewrite Hc, Hb.
    + inversion H; subst. exists O. now split.
Qed.

Lemma loop_return_passes (fuel : nat) (l : Locals) (w w' : World D Ext) (code : Z) :
  loop fuel l w = Some (Return code, w') ->
  code = 1
  /\ exists k lk wk,
       passes cfg env tmax maxR minD dtsign k l w = Some (lk, wk)
       /\ cond lk (sim wk) = true
       /\ Rebound.N (sim wk) <= 0
       /\ w' = emit EvErrorNoParticles wk.
Proof.
  revert l w. induction fuel as [| fuel IH]; intros l w H; simpl in H.
  - discriminate H.
  - destruct (cond l (sim w)) eqn:Hc; [| discriminate H].
    destruct (body l w) as [[c | l1] w1] eqn:Hb.
    + unfold loop_body in Hb.
      destruct (Rebound.N (sim w) <=? 0) eqn:HN.
      * inversion Hb; subst. inversion H; subst. split; [reflexivity |].
        exists O, l, w. simpl. apply Z.leb_le in HN. auto.
      * destruct (advance cfg env tmax dtsign l w). discriminate Hb.
    + destruct (IH _ _ H) as [Hcode [k [lk [wk [Hk Hrest]]]]].
      split; [exact Hcode |].
      exists (S k), lk, wk. simpl. rewrite Hc, Hb. auto.
Qed.

(** More fuel does not change the result of a run that has one. *)
Lemma loop_more_fuel (fuel extra : nat) (l : Locals) (w : World D Ext)
    (res : Flow * World D Ext) :
  loop fuel l w = Some res -> loop (fuel + extra) l w = Some res.
Proof.
  revert l w. induction fuel as [| fuel IH]; intros l w H; simpl in *.
  - discriminate H.
  - destruct (cond l (sim w)); [| exact H].
    destruct (body l w) as [[c | l1] w1]; [exact H |].
    now apply IH.
Qed.

Lemma advance_ret_value (l : Locals) (w : World D Ext) :
  ret_value (fst (advance cfg env tmax dtsign l w)) = ret_value l.
Proof.
  unfold advance, recheck.
  destruct (finish_test tmax dtsign _); reflexivity.
Qed.

Lemma passes_codes (k : nat) (l l' : Locals) (w w' : World D Ext) :
  passes cfg env tmax maxR minD dtsign k l w = Some (l', w') ->
  ret_value l = 0 \/ ret_value l = 2 \/ ret_value l = 3 ->
  ret_value l' = 0 \/ ret_value l' = 2 \/ ret_value l' = 3.
Proof.
  revert l w. induction k as [| k IH]; intros l w H Hl; simpl in H.
  - now inversion H; subst.
  - destruct (cond l (sim w)); [| discriminate H].
    destruct (body l w) as [[c | l1] w1] eqn:Hb; [discriminate H |].
    apply (IH _ _ H).
    unfold loop_body in Hb.
    destruct (Rebound.N (sim w) <=? 0); [discriminate Hb |].
    pose proof (advance_ret_value l w) as Hadv.
    destruct (advance cfg env tmax dtsign l w) as [la wa].
    inversion Hb; subst. simpl in *.
    apply monitor_codes. now rewrite Hadv.
Qed.

End Loop.

(** *** Before and after the loop *)

Lemma trace_call_post_timestep (w : World D Ext) :
  trace (call_post_timestep env w)
  = trace w ++ (if is_set (Rebound.post_timestep (sim w)) then [EvPostTimestep]
                else []).
Proof.
  unfold call_post_timestep. apply trace_when. intros. apply trace_invoke.
Qed.

Lemma time_call_post_timestep (w : World D Ext) :
  (forall p, keeps_time (fn_code env p)) ->
  Rebound.t (sim (call_post_timestep env w)) = Rebound.t (sim w).
Proof.
  intros H. unfold call_post_timestep, when.
  destruct (is_set (Rebound.post_timestep (sim w))); [| reflexivity].
  unfold invoke. rewrite sim_call. apply H.
Qed.

Lemma dt_call_post_timestep (w : World D Ext) :
  (forall p, keeps_dt (fn_code env p)) ->
  Rebound.dt (sim (call_post_timestep env w)) = Rebound.dt (sim w).
Proof.
  intros H. unfold call_post_timestep, when.
  destruct (is_set (Rebound.post_timestep (sim w))); [| reflexivity].
  unfold invoke. rewrite sim_call. apply H.
Qed.

Lemma call_post_timestep_unset (w : World D Ext) :
  is_set (Rebound.post_timestep (sim w)) = false ->
  call_post_timestep env w = w.
Proof. intros H. unfold call_post_timestep, when. now rewrite H. Qed.

Lemma precheck_frame (tmax dtsign : D) (w : World D Ext) :
  Rebound.t (sim (snd (precheck tmax dtsign w))) = Rebound.t (sim w)
  /\ Rebound.N (sim (snd (precheck tmax dtsign w))) = Rebound.N (sim w)
  /\ Rebound.exit_simulation (sim (snd (precheck tmax dtsign w)))
     = Rebound.exit_simulation (sim w)
  /\ ext (snd (precheck tmax dtsign w)) = ext w
  /\ trace (snd (precheck tmax dtsign w)) = trace w.
Proof.
  unfold precheck. destruct (finish_test tmax dtsign (sim w)); simpl; auto.
Qed.

Lemma epilogue_result (l : Locals) (w : World D Ext) :
  fst (epilogue env l w) = ret_value l
  /\ trace (snd (epilogue env l w))
     = trace w ++ [EvIntegratorSynchronize; EvGettimeofday; EvPrintRuntime]
  /\ sim (snd (epilogue env l w))
     = Rebound.set_dt (dt_last_done l)
         (fst (integrator_synchronize env (sim w) (ext w)))
  /\ Rebound.dt (sim (snd (epilogue env l w))) = dt_last_done l.
Proof.
  unfold epilogue, emit, assign. simpl.
  rewrite trace_call, sim_call, <- !app_assoc. simpl. auto.
Qed.

(** The entry of the loop: [dtsign], the locals and the state. *)
Lemma prologue_entry (tmax : D) (w : World D Ext) :
  let w1 := call_post_timestep env (emit EvGettimeofday w) in
  let dtsign := copysign1 (Rebound.dt (sim w)) in
  prologue env tmax w
  = (dtsign,
     mkLocals (Rebound.dt (sim w)) (fst (precheck tmax dtsign w1)) 0,
     snd (precheck tmax dtsign w1)).
Proof.
  intros w1 dtsign. unfold prologue. simpl. fold w1 dtsign.
  now destruct (precheck tmax dtsign w1).
Qed.

Lemma prologue_dtsign (tmax : D) (w : World D Ext) :
  fst (fst (prologue env tmax w)) = copysign1 (Rebound.dt (sim w)).
Proof. now rewrite prologue_entry. Qed.

Lemma prologue_locals (tmax : D) (w : World D Ext) :
  snd (fst (prologue env tmax w))
  = mkLocals (Rebound.dt (sim w))
      (fst (precheck tmax (copysign1 (Rebound.dt (sim w)))
              (call_post_timestep env (emit EvGettimeofday w)))) 0.
Proof. now rewrite prologue_entry. Qed.

Lemma prologue_world (tmax : D) (w : World D Ext) :
  snd (prologue env tmax w)
  = snd (precheck tmax (copysign1 (Rebound.dt (sim w)))
           (call_post_timestep env (emit EvGettimeofday w))).
Proof. now rewrite prologue_entry. Qed.

Lemma rebound_integrate_unfold (fuel : nat) (tmax maxR minD : D) (w : World D Ext) :
  rebound_integrate cfg env fuel tmax maxR minD w
  = match integrate_loop cfg env tmax maxR minD
            (fst (fst (prologue env tmax w))) fuel
            (snd (fst (prologue env tmax w))) (snd (prologue env tmax w)) with
    | None => None
    | Some (Return code, w') => Some (code, w')
    | Some (Next l, w') => Some (epilogue env l w')
    end.
Proof.
  unfold rebound_integrate. now destruct (prologue env tmax w) as [[s l0] w0].
Qed.

Lemma rebound_integrate_more_fuel (fuel extra : nat) (tmax maxR minD : D)
    (w : World D Ext) (res : Z * World D Ext) :
  rebound_integrate cfg env fuel tmax maxR minD w = Some res ->
  rebound_integrate cfg env (fuel + extra) tmax maxR minD w = Some res.
Proof.
  rewrite !rebound_integrate_unfold.
  destruct (integrate_loop cfg env tmax maxR minD _ fuel _ _) as [res' |] eqn:H;
    [| discriminate].
  now rewrite (loop_more_fuel _ _ _ _ _ _ _ _ _ H).
Qed.

(** A pass whose scans leave a code other than 0 is the last one: the
    condition fails at its next test, and the function ends through the
    code after the loop. *)
Lemma signal_pass_returns (tmax maxR minD : D) (w : World D Ext)
    (k fuel : nat) (l : Locals) (wk : World D Ext) :
  let dtsign := fst (fst (prologue env tmax w)) in
  let a := advance cfg env tmax dtsign l wk in
  let code := monitor maxR minD (sim (snd a)) (ret_value (fst a)) in
  passes cfg env tmax maxR minD dtsign k
    (snd (fst (prologue env tmax w))) (snd (prologue env tmax w)) = Some (l, wk) ->
  loop_cond tmax dtsign l (sim wk) = true ->
  0 < Rebound.N (sim wk) ->
  code <> 0 ->
  rebound_integrate cfg env (k + S (S fuel)) tmax maxR minD w
  = Some (epilogue env
            (mkLocals (dt_last_done (fst a)) (last_step (fst a)) code) (snd a)).
Proof.
  intros dtsign a code Hk Hc HN Hcode.
  rewrite rebound_integrate_unfold. fold dtsign.
  rewrite (passes_loop _ _ _ _ _ _ _ _ _ _ Hk).
  rewrite (loop_pass _ _ _ _ _ _ _ _ _ Hc (body_next _ _ _ _ l wk HN)).
  fold a. fold code.
  rewrite loop_ends; [reflexivity |].
  apply cond_signal. exact Hcode.
Qed.

(** *** Escape and close encounter *)

(** C1 (amended).  When, in a pass of the loop of [rebound_integrate],
    the escape scan runs ([maxR] not zero) and finds a particle beyond
    [maxR], or the close-encounter scan runs and finds a pair closer than
    [minD], the result code is set to 2, or to 3 if it is the
    close-encounter scan that finds; the pass is completed and is the
    last one: the loop condition requires a zero code, so that no further
    step is made, and the function goes on to the final synchronization
    and returns the code. *)
Theorem escape_signal_ends_loop (tmax maxR minD : D) (w : World D Ext)
    (k fuel : nat) (l : Locals) (wk : World D Ext) :
  let dtsign := fst (fst (prologue env tmax w)) in
  let a := advance cfg env tmax dtsign l wk in
  let code := if dnonzero minD && encounter_found minD (sim (snd a)) then 3 else 2 in
  passes cfg env tmax maxR minD dtsign k
    (snd (fst (prologue env tmax w))) (snd (prologue env tmax w)) = Some (l, wk) ->
  loop_cond tmax dtsign l (sim wk) = true ->
  0 < Rebound.N (sim wk) ->
  (dnonzero maxR && escape_found maxR (sim (snd a)))
  || (dnonzero minD && encounter_found minD (sim (snd a))) = true ->
  exists wf,
    rebound_integrate cfg env (k + S (S fuel)) tmax maxR minD w = Some (code, wf)
    /\ trace wf
       = trace (snd a) ++ [EvIntegratorSynchronize; EvGettimeofday; EvPrintRuntime].
Proof.
  intros dtsign a code Hk Hc HN Hfound.
  assert (Hmon : monitor maxR minD (sim (snd a)) (ret_value (fst a)) = code).
  { rewrite monitor_found. unfold code.
    destruct (dnonzero minD && encounter_found minD (sim (snd a)));
      [reflexivity |].
    rewrite orb_false_r in Hfound. now rewrite Hfound. }
  assert (Hcode : code <> 0).
  { unfold code. destruct (dnonzero minD && encounter_found minD (sim (snd a)));
      discriminate. }
  pose proof (signal_pass_returns tmax maxR minD w k fuel l wk Hk Hc HN) as Hrun.
  fold dtsign a in Hrun. rewrite Hmon in Hrun. specialize (Hrun Hcode).
  destruct (epilogue_result
              (mkLocals (dt_last_done (fst a)) (last_step (fst a)) code) (snd a))
    as [Hret [Htrace _]].
  destruct (epilogue env
              (mkLocals (dt_last_done (fst a)) (last_step (fst a)) code) (snd a))
    as [c wf].
  simpl in Hret, Htrace. subst c.
  exists wf. split; [exact Hrun | exact Htrace].
Qed.

(** C2 (amended).  When, in the same pass of the loop, a particle is
    beyond [maxR] and a pair is closer than [minD] (both scans running),
    [rebound_integrate] returns 3: the close-encounter scan runs after
    the escape scan and overwrites its code. *)
Theorem encounter_overrides_escape (tmax maxR minD : D) (w : World D Ext)
    (k fuel : nat) (l : Locals) (wk : World D Ext) :
  let dtsign := fst (fst (prologue env tmax w)) in
  let a := advance cfg env tmax dtsign l wk in
  passes cfg env tmax maxR minD dtsign k
    (snd (fst (prologue env tmax w))) (snd (prologue env tmax w)) = Some (l, wk) ->
  loop_cond tmax dtsign l (sim wk) = true ->
  0 < Rebound.N (sim wk) ->
  dnonzero maxR = true ->
  escape_found maxR (sim (snd a)) = true ->
  dnonzero minD = true ->
  encounter_found minD (sim (snd a)) = true ->
  escape_scan maxR (sim (snd a)) (ret_value (fst a)) = 2
  /\ monitor maxR minD (sim (snd a)) (ret_value (fst a)) = 3
  /\ exists wf,
       rebound_integrate cfg env (k + S (S fuel)) tmax maxR minD w = Some (3, wf).
Proof.
  intros dtsign a Hk Hc HN HmaxR Hesc HminD Henc.
  assert (Hmon : monitor maxR minD (sim (snd a)) (ret_value (fst a)) = 3).
  { rewrite monitor_found, HminD, Henc. reflexivity. }
  split; [| split].
  - rewrite escape_scan_found, Hesc. reflexivity.
  - exact Hmon.
  - pose proof (signal_pass_returns tmax maxR minD w k fuel l wk Hk Hc HN) as Hrun.
    fold dtsign a in Hrun. rewrite Hmon in Hrun.
    specialize (Hrun ltac:(discriminate)).
    eexists. rewrite Hrun. unfold epilogue. reflexivity.
Qed.

(** *** The ways out of [rebound_integrate] *)

(** C3 (amended).  Whenever [rebound_integrate] returns a code other than
    1, that is on every way out through the loop condition (target time
    reached, two final-step marks, escape or close encounter signalled,
    [exit_simulation] set), it has called [integrator_synchronize] after
    the loop, as its last call before the clock is read and the runtime
    printed, and then set [dt] to [dt_last_done], the step size recorded
    by the last re-check that did not truncate (or the [dt] at entry);
    the value returned is [ret_value]. *)
Theorem final_synchronization_and_restore (fuel : nat) (tmax maxR minD : D)
    (w : World D Ext) (code : Z) (wf : World D Ext) :
  rebound_integrate cfg env fuel tmax maxR minD w = Some (code, wf) ->
  code <> 1 ->
  exists l w',
    integrate_loop cfg env tmax maxR minD (fst (fst (prologue env tmax w))) fuel
      (snd (fst (prologue env tmax w))) (snd (prologue env tmax w))
    = Some (Next l, w')
    /\ code = ret_value l
    /\ trace wf
       = trace w' ++ [EvIntegratorSynchronize; EvGettimeofday; EvPrintRuntime]
    /\ sim wf
       = Rebound.set_dt (dt_last_done l)
           (fst (integrator_synchronize env (sim w') (ext w')))
    /\ Rebound.dt (sim wf) = dt_last_done l.
Proof.
  intros Hrun Hcode. rewrite rebound_integrate_unfold in Hrun.
  destruct (integrate_loop cfg env tmax maxR minD _ fuel _ _)
    as [[[c | l] w'] |] eqn:Hloop; [| | discriminate Hrun].
  - apply loop_return_passes in Hloop. destruct Hloop as [Hc _].
    inversion Hrun; subst. now contradiction Hcode.
  - exists l, w'. split; [reflexivity |].
    destruct (epilogue_result l w') as [Hret [Htrace [Hsim Hdt]]].
    destruct (epilogue env l w') as [c wf'].
    simpl in Hret, Htrace, Hsim, Hdt. inversion Hrun; subst. auto.
Qed.

(** C6 (amended).  When [rebound_integrate] finds no particle ([N <= 0])
    at a first test of the loop condition that holds (after the priming
    call of [post_timestep]: the time is before [tmax] in the direction of
    integration and [exit_simulation] is 0), it returns 1 without a step,
    and [t] is what the priming call left, hence what it was at entry when
    no callback is set.  And 1 is returned in no other way: only from a
    pass that the loop condition admits and that finds [N <= 0]. *)
Theorem no_particles_abort (fuel : nat) (tmax maxR minD : D) (w : World D Ext) :
  let w1 := call_post_timestep env (emit EvGettimeofday w) in
  let dtsign := copysign1 (Rebound.dt (sim w)) in
  (Rebound.N (sim w1) <= 0 ->
   dlt (dmul (Rebound.t (sim w1)) dtsign) (dmul tmax dtsign) = true ->
   Rebound.exit_simulation (sim w1) = 0 ->
   exists wf,
     rebound_integrate cfg env (S fuel) tmax maxR minD w = Some (1, wf)
     /\ Rebound.t (sim wf) = Rebound.t (sim w1)
     /\ trace wf = trace w1 ++ [EvErrorNoParticles]
     /\ (is_set (Rebound.post_timestep (sim w)) = false ->
         Rebound.t (sim wf) = Rebound.t (sim w)))
  /\ (forall wf,
        rebound_integrate cfg env fuel tmax maxR minD w = Some (1, wf) ->
        exists k lk wk,
          passes cfg env tmax maxR minD dtsign k
            (snd (fst (prologue env tmax w))) (snd (prologue env tmax w))
          = Some (lk, wk)
          /\ loop_cond tmax dtsign lk (sim wk) = true
          /\ Rebound.N (sim wk) <= 0
          /\ wf = emit EvErrorNoParticles wk).
Proof.
  intros w1 dtsign. split.
  - intros HN Hlt Hexit.
    destruct (precheck_frame tmax dtsign w1) as [Ht [HN' [Hex [_ Htr]]]].
    exists (emit EvErrorNoParticles (snd (precheck tmax dtsign w1))).
    split; [| split; [| split]].
    + rewrite rebound_integrate_unfold, prologue_dtsign, prologue_locals,
        prologue_world.
      fold w1 dtsign. rewrite loop_abort; [reflexivity | |].
      * unfold loop_cond. simpl. rewrite Ht, Hlt, Hex, Hexit. simpl.
        unfold precheck. now destruct (finish_test tmax dtsign (sim w1)).
      * now rewrite HN'.
    + simpl. exact Ht.
    + simpl. now rewrite Htr.
    + intros Hunset. simpl. rewrite Ht. unfold w1.
      rewrite call_post_timestep_unset by exact Hunset. reflexivity.
  - intros wf Hrun. rewrite rebound_integrate_unfold in Hrun.
    assert (Hs : fst (fst (prologue env tmax w)) = dtsign)
      by apply prologue_dtsign.
    assert (H0 : ret_value (snd (fst (prologue env tmax w))) = 0)
      by now rewrite prologue_locals.
    rewrite Hs in Hrun.
    destruct (integrate_loop cfg env tmax maxR minD dtsign fuel _ _)
      as [[[c | l] w'] |] eqn:Hloop; [| | discriminate Hrun].
    + apply loop_return_passes in Hloop.
      destruct Hloop as [_ [k [lk [wk [Hk [Hc [HN Hw]]]]]]].
      inversion Hrun; subst. exists k, lk, wk. auto.
    + exfalso. apply loop_next_passes in Hloop. destruct Hloop as [k [Hk _]].
      apply passes_codes in Hk; [| now left].
      destruct (epilogue_result l w') as [Hret _].
      destruct (epilogue env l w') as [c wf']. simpl in Hret.
      inversion Hrun; subst. lia.
Qed.

(** C10 (amended).  When the time that [rebound_integrate] finds after
    the priming call of the [post_timestep] callback is not before
    [tmax] in the direction of integration, it makes no step and returns
    0.  It has called the callback once if one is set and
    [integrator_synchronize] once, on the state that the callback and
    the check before the loop left, and nothing else; on return [dt] is
    what it was at entry, whether or not the check before the loop has
    overwritten it with [tmax - t].  The time on return is what the
    callback and the synchronization made of it: the time after the
    priming call when [integrator_synchronize] leaves [t] alone, and the
    time at entry when the callback leaves it alone too. *)
Theorem integrate_when_time_reached (fuel : nat) (tmax maxR minD : D)
    (w : World D Ext) :
  let dtsign := copysign1 (Rebound.dt (sim w)) in
  let p := Rebound.post_timestep (sim w) in
  let primed := if is_set p then fn_code env p (sim w) (ext w)
                else (sim w, ext w) in
  let r1 := fst primed in
  let r0 := if dge (dmul (dadd (Rebound.t r1) (Rebound.dt r1)) dtsign)
                   (dmul tmax dtsign)
               && (Rebound.exact_finish_time r1 =? 1)
            then Rebound.set_dt (dsub tmax (Rebound.t r1)) r1
            else r1 in
  dlt (dmul (Rebound.t r1) dtsign) (dmul tmax dtsign) = false ->
  exists wf,
    rebound_integrate cfg env (S fuel) tmax maxR minD w = Some (0, wf)
    /\ trace wf
       = trace w
         ++ [EvGettimeofday]
         ++ (if is_set p then [EvPostTimestep] else [])
         ++ [EvIntegratorSynchronize; EvGettimeofday; EvPrintRuntime]
    /\ sim wf
       = Rebound.set_dt (Rebound.dt (sim w))
           (fst (integrator_synchronize env r0 (snd primed)))
    /\ ext wf = snd (integrator_synchronize env r0 (snd primed))
    /\ Rebound.dt (sim wf) = Rebound.dt (sim w)
    /\ (keeps_time (integrator_synchronize env) ->
        Rebound.t (sim wf) = Rebound.t r1)
    /\ (keeps_time (integrator_synchronize env) ->
        keeps_time (fn_code env p) ->
        Rebound.t (sim wf) = Rebound.t (sim w)).
Proof.
  intros dtsign p primed r1 r0 Hreached.
  set (w1 := call_post_timestep env (emit EvGettimeofday w)).
  set (l0 := mkLocals (Rebound.dt (sim w)) (fst (precheck tmax dtsign w1)) 0).
  set (w0 := snd (precheck tmax dtsign w1)).
  assert (Hw1 : sim w1 = r1 /\ ext w1 = snd primed).
  { unfold w1, call_post_timestep, when, invoke, r1, primed, p. simpl.
    destruct (is_set (Rebound.post_timestep (sim w))).
    - now rewrite sim_call, ext_call.
    - now split. }
  destruct Hw1 as [Hsim1 Hext1].
  assert (Hw0 : sim w0 = r0 /\ ext w0 = snd primed /\ trace w0 = trace w1).
  { unfold w0, precheck, finish_test, r0. rewrite Hsim1.
    destruct (dge _ _ && _); simpl; rewrite ?Hsim1; auto. }
  destruct Hw0 as [Hsim0 [Hext0 Htr0]].
  assert (Ht0 : Rebound.t r0 = Rebound.t r1).
  { unfold r0. now destruct (dge _ _ && _). }
  assert (Hrun : rebound_integrate cfg env (S fuel) tmax maxR minD w
                 = Some (epilogue env l0 w0)).
  { rewrite rebound_integrate_unfold, prologue_dtsign, prologue_locals,
      prologue_world.
    fold w1 dtsign l0 w0. rewrite loop_ends; [reflexivity |].
    unfold loop_cond. now rewrite Hsim0, Ht0, Hreached. }
  destruct (epilogue_result l0 w0) as [Hret [Htrace [Hsim Hdt]]].
  assert (Hext : ext (snd (epilogue env l0 w0))
                 = snd (integrator_synchronize env (sim w0) (ext w0))).
  { unfold epilogue, emit, assign. simpl. apply ext_call. }
  destruct (epilogue env l0 w0) as [c wf].
  simpl in Hret, Htrace, Hsim, Hdt, Hext.
  rewrite Hsim0, Hext0 in Hsim, Hext.
  assert (Htime : keeps_time (integrator_synchronize env) ->
                  Rebound.t (sim wf) = Rebound.t r1).
  { intros Hsync. rewrite Hsim. simpl. now rewrite Hsync. }
  exists wf. subst c. split; [exact Hrun |].
  split; [| split; [exact Hsim | split; [exact Hext | split; [exact Hdt |]]]].
  - rewrite Htrace, Htr0. unfold w1.
    rewrite trace_call_post_timestep. simpl. rewrite <- !app_assoc. reflexivity.
  - split; [exact Htime |].
    intros Hsync Hhook. rewrite (Htime Hsync).
    unfold r1, primed. destruct (is_set p); [apply Hhook | reflexivity].
Qed.

(** *** Landing on [tmax] *)

Lemma advance_unfold (tmax dtsign : D) (l : Locals) (w : World D Ext) :
  let w1 := ifdef (OPENGL cfg) (call EvDisplay (display env))
              (rebound_step cfg env w) in
  advance cfg env tmax dtsign l w
  = if finish_test tmax dtsign (sim w1) then
      (mkLocals (dt_last_done l) (last_step l + 1) (ret_value l),
       call_post_timestep env
         (assign (fun r => Rebound.set_dt (dsub tmax (Rebound.t r)) r)
            (call EvIntegratorSynchronize (integrator_synchronize env) w1)))
    else
      (mkLocals (Rebound.dt (sim w1)) (last_step l) (ret_value l),
       call_post_timestep env w1).
Proof.
  intros w1. unfold advance, recheck. fold w1.
  destruct (finish_test tmax dtsign (sim w1)); reflexivity.
Qed.

Section Landing.

Variables (tmax maxR minD dtsign : D).

Hypothesis Hstep : step_advances_time cfg env.
Hypothesis Hsync : keeps_time (integrator_synchronize env).
Hypothesis Hdisplay : keeps_time (display env).
Hypothesis Hhooks : forall p, keeps_time (fn_code env p) /\ keeps_dt (fn_code env p).
(** [tmax] is not before itself, as the loop condition compares. *)
Hypothesis Hirr : dlt (dmul tmax dtsign) (dmul tmax dtsign) = false.

Lemma time_after_display (w : World D Ext) :
  Rebound.t (sim (ifdef (OPENGL cfg) (call EvDisplay (display env))
                    (rebound_step cfg env w)))
  = dadd (Rebound.t (sim w)) (Rebound.dt (sim w)).
Proof.
  unfold ifdef. destruct (OPENGL cfg).
  - rewrite sim_call, Hdisplay. apply Hstep.
  - apply Hstep.
Qed.

Lemma before_tmax (l : Locals) (r : Rebound.struct D) :
  loop_cond tmax dtsign l r = true -> Rebound.t r <> tmax.
Proof.
  intros Hc Heq. unfold loop_cond in Hc. rewrite Heq, Hirr in Hc.
  discriminate Hc.
Qed.

(** A pass keeps [landing], when the truncated step that it may make
    adds up to [tmax]. *)
Lemma landing_pass (l l' : Locals) (w w' : World D Ext) :
  landing tmax l (sim w) ->
  loop_cond tmax dtsign l (sim w) = true ->
  (last_step l = 1 ->
   dadd (Rebound.t (sim w)) (dsub tmax (Rebound.t (sim w))) = tmax) ->
  loop_body cfg env tmax maxR minD dtsign l w = (Next l', w') ->
  landing tmax l' (sim w').
Proof.
  intros [H1 H2] Hc Hsum Hb.
  assert (Hlt : last_step l < 2).
  { unfold loop_cond in Hc. rewrite !andb_true_iff in Hc.
    destruct Hc as [[[_ Hm] _] _]. now apply Z.ltb_lt in Hm. }
  pose proof (before_tmax l (sim w) Hc) as Hbefore.
  assert (Hland : last_step l = 1 ->
                  dadd (Rebound.t (sim w)) (Rebound.dt (sim w)) = tmax).
  { intros Hm. destruct (H1 Hm) as [Hdt | Ht]; [| contradiction].
    rewrite Hdt. now apply Hsum. }
  unfold loop_body in Hb.
  destruct (Rebound.N (sim w) <=? 0); [discriminate Hb |].
  rewrite advance_unfold in Hb.
  pose proof (time_after_display w) as Ht1.
  set (w1 := ifdef (OPENGL cfg) (call EvDisplay (display env))
               (rebound_step cfg env w)) in *.
  destruct (finish_test tmax dtsign (sim w1)).
  - inversion Hb; subst; clear Hb. unfold landing. simpl.
    rewrite time_call_post_timestep by (intros p; apply Hhooks).
    rewrite dt_call_post_timestep by (intros p; apply Hhooks).
    simpl. split.
    + intros _. now left.
    + intros Hm. rewrite sim_call, Hsync, Ht1. apply Hland. lia.
  - inversion Hb; subst; clear Hb. unfold landing. simpl.
    rewrite time_call_post_timestep by (intros p; apply Hhooks).
    rewrite Ht1. split.
    + intros Hm. right. now apply Hland.
    + intros Hm. lia.
Qed.

Lemma landing_passes (k : nat) :
  forall (l l' : Locals) (w w' : World D Ext),
    landing tmax l (sim w) ->
    (forall j lj wj,
       passes cfg env tmax maxR minD dtsign j l w = Some (lj, wj) ->
       last_step lj = 1 ->
       loop_cond tmax dtsign lj (sim wj) = true ->
       dadd (Rebound.t (sim wj)) (dsub tmax (Rebound.t (sim wj))) = tmax) ->
    passes cfg env tmax maxR minD dtsign k l w = Some (l', w') ->
    landing tmax l' (sim w').
Proof.
  induction k as [| k IH]; intros l l' w w' Hl Hsum Hk; simpl in Hk.
  - now inversion Hk; subst.
  - destruct (loop_cond tmax dtsign l (sim w)) eqn:Hc; [| discriminate Hk].
    destruct (loop_body cfg env tmax maxR minD dtsign l w) as [[c | l1] w1] eqn:Hb;
      [discriminate Hk |].
    apply (IH l1 l' w1 w'); [| | exact Hk].
    + apply (landing_pass l l1 w w1 Hl Hc); [| exact Hb].
      intros Hm. now apply (Hsum O l w).
    + intros j lj wj Hj. apply (Hsum (S j)). simpl. now rewrite Hc, Hb.
Qed.

End Landing.

(** The check before the loop leaves [landing]: the one mark it may set
    comes with [dt = tmax - t]. *)
Lemma landing_entry (tmax dtsign dt0 : D) (w : World D Ext) :
  landing tmax
    (mkLocals dt0 (fst (precheck tmax dtsign w)) 0)
    (sim (snd (precheck tmax dtsign w))).
Proof.
  unfold landing, precheck. destruct (finish_test tmax dtsign (sim w)); simpl.
  - split; [| discriminate]. intros _. now left.
  - split; discriminate.
Qed.

(** C5 (amended).  After each step of the loop of [rebound_integrate],
    when [exact_finish_time] is 1 and the next step ([t + dt]) would
    reach or pass [tmax] in the direction of integration, the controller
    calls [integrator_synchronize], sets [dt] to [tmax - t] as the
    arithmetic computes it and adds one final-step mark; otherwise it
    records [dt] in [dt_last_done].  The loop ends as soon as the marks
    are no longer fewer than two.  A run that ends with two marks ends
    with [t] equal to [tmax], and with [dt] restored to [dt_last_done],
    whenever the truncated step adds up: [t + (tmax - t)], computed at
    the time [t] from which the loop goes on with one mark, is [tmax].
    This supposes that a step advances [t] by [dt], that
    [integrator_synchronize], the display and the callback leave [t]
    alone, the callback [dt] too, and that [tmax] is not before itself
    as the loop condition compares (no value of binary64 is).  It holds
    in any arithmetic, binary64 included; where the sum rounds, the run
    ends beside [tmax]. *)
Theorem exact_finish_truncation (tmax maxR minD : D) (w : World D Ext) :
  let dtsign := fst (fst (prologue env tmax w)) in
  let l0 := snd (fst (prologue env tmax w)) in
  let w0 := snd (prologue env tmax w) in
  (forall l wk,
     let w1 := ifdef (OPENGL cfg) (call EvDisplay (display env))
                 (rebound_step cfg env wk) in
     advance cfg env tmax dtsign l wk
     = if dge (dmul (dadd (Rebound.t (sim w1)) (Rebound.dt (sim w1))) dtsign)
              (dmul tmax dtsign)
          && (Rebound.exact_finish_time (sim w1) =? 1)
       then
         (mkLocals (dt_last_done l) (last_step l + 1) (ret_value l),
          call_post_timestep env
            (assign (fun r => Rebound.set_dt (dsub tmax (Rebound.t r)) r)
               (call EvIntegratorSynchronize (integrator_synchronize env) w1)))
       else
         (mkLocals (Rebound.dt (sim w1)) (last_step l) (ret_value l),
          call_post_timestep env w1))
  /\ (forall fuel l wk,
        2 <= last_step l ->
        integrate_loop cfg env tmax maxR minD dtsign (S fuel) l wk
        = Some (Next l, wk))
  /\ (step_advances_time cfg env ->
      keeps_time (integrator_synchronize env) ->
      keeps_time (display env) ->
      (forall p, keeps_time (fn_code env p) /\ keeps_dt (fn_code env p)) ->
      dlt (dmul tmax dtsign) (dmul tmax dtsign) = false ->
      (forall k l1 w1,
         passes cfg env tmax maxR minD dtsign k l0 w0 = Some (l1, w1) ->
         last_step l1 = 1 ->
         loop_cond tmax dtsign l1 (sim w1) = true ->
         dadd (Rebound.t (sim w1)) (dsub tmax (Rebound.t (sim w1))) = tmax) ->
      forall fuel l w',
        integrate_loop cfg env tmax maxR minD dtsign fuel l0 w0
        = Some (Next l, w') ->
        last_step l = 2 ->
        Rebound.t (sim w') = tmax
        /\ exists wf,
             rebound_integrate cfg env fuel tmax maxR minD w
             = Some (ret_value l, wf)
             /\ Rebound.t (sim wf) = tmax
             /\ Rebound.dt (sim wf) = dt_last_done l).
Proof.
  intros dtsign l0 w0. split; [| split].
  - intros l wk. apply advance_unfold.
  - intros fuel l wk Hm. apply loop_ends. now apply cond_marks.
  - intros Hstep Hsync Hdisplay Hhooks Hirr Hsum fuel l w' Hloop Hm.
    destruct (loop_next_passes _ _ _ _ _ _ _ _ _ Hloop) as [k [Hk _]].
    assert (Hland : landing tmax l (sim w')).
    { apply (landing_passes tmax maxR minD dtsign Hstep Hsync Hdisplay Hhooks
               Hirr k l0 l w0 w'); [| exact Hsum | exact Hk].
      unfold l0, w0. rewrite prologue_locals, prologue_world.
      apply landing_entry. }
    destruct Hland as [_ H2]. specialize (H2 Hm). split; [exact H2 |].
    destruct (epilogue_result l w') as [Hret [_ [Hsim Hdt]]].
    destruct (epilogue env l w') as [c wf] eqn:He.
    simpl in Hret, Hsim, Hdt. subst c. exists wf.
    split; [| split].
    + rewrite rebound_integrate_unfold. fold dtsign l0 w0. rewrite Hloop.
      now rewrite He.
    + rewrite Hsim. simpl. now rewrite Hsync.
    + exact Hdt.
Qed.

End Properties.

(** ** The program on inputs

    Runs in binary64 with the collaborators of [Demo]. *)

(** No double is below itself: the hypothesis on [tmax] of the landing
    on [tmax] holds of every value of binary64, NaN included. *)
Lemma ltb_irrefl (a : float) : PrimFloat.ltb a a = false.
Proof.
  rewrite ltb_spec. unfold SFltb, SFcompare.
  destruct (Prim2SF a) as [[|] | [|] | | [|] m e]; try reflexivity;
    rewrite Z.compare_refl, ?Pos.compare_cont_refl, ?Pos.compare_refl;
    reflexivity.
Qed.

Lemma Demo_keeps_time {D : Type} {ops : DoubleOps D} :
  keeps_time (Ext := list Z) (integrator_synchronize Demo.env)
  /\ keeps_time (Ext := list Z) (display (D := D) Demo.env)
  /\ (forall p, keeps_time (fn_code (D := D) Demo.env p)
                /\ keeps_dt (fn_code (D := D) Demo.env p)).
Proof.
  split; [| split].
  - intros r x. reflexivity.
  - intros r x. reflexivity.
  - intros p. split; intros r x; reflexivity.
Qed.

Lemma Demo_step_advances_time {D : Type} {ops : DoubleOps D} :
  step_advances_time (D := D) Demo.plain Demo.env.
Proof.
  intros [r x tr].
  unfold rebound_step, step_tree, step_forces, step_post_timestep_modifications,
    step_collisions, andThen, when, ifdef, ifndef, invoke, assign, call.
  simpl.
  repeat match goal with
         | |- context [if ?b then _ else _] => destruct b; simpl
         end;
    reflexivity.
Qed.

(** C1 (counterexample).  One particle at distance 10, [maxR = 1], target
    time 10, step 1.  After the first step the time is 1, before the
    target, and no other condition of the loop ends the run ([dt] is
    whole, [exit_simulation] is 0, [exact_finish_time] is off); yet the
    run makes that one step only and returns 2. *)
Lemma escape_stops_the_run :
  Demo.summary
    (rebound_integrate Demo.plain Demo.env 10 10%float 1%float 0%float
       Demo.escaping)
  = Some (2, 1%float, 1%float, [1],
          [EvGettimeofday;
           EvIntegratorPart1; EvBoundariesCheck; EvGravity; EvIntegratorPart2;
           EvBoundariesCheck; EvCollisionsSearch; EvCollisionsResolve;
           EvIntegratorSynchronize; EvGettimeofday; EvPrintRuntime])
  /\ PrimFloat.ltb 1 10 = true.
Proof. split; vm_compute; reflexivity. Qed.

(** C1 (witness): the same run, through the theorem. *)
Lemma escape_signal_ends_loop_witness :
  exists wf,
    rebound_integrate Demo.plain Demo.env 10 10%float 1%float 0%float
      Demo.escaping = Some (2, wf)
    /\ trace wf
       = [EvGettimeofday;
          EvIntegratorPart1; EvBoundariesCheck; EvGravity; EvIntegratorPart2;
          EvBoundariesCheck; EvCollisionsSearch; EvCollisionsResolve;
          EvIntegratorSynchronize; EvGettimeofday; EvPrintRuntime].
Proof.
  exact (escape_signal_ends_loop Demo.plain Demo.env 10%float 1%float 0%float
           Demo.escaping 0 8
           (snd (fst (prologue Demo.env 10%float Demo.escaping)))
           (snd (prologue Demo.env 10%float Demo.escaping))
           eq_refl eq_refl eq_refl eq_refl).
Defined.

(** C2 (counterexample).  Two particles at the same place, at distance 10
    from the origin, with [maxR = 1] and [minD = 1]: in the first pass one
    particle is beyond [maxR] and the pair is closer than [minD]; the run
    returns 3, not 2. *)
Lemma escape_and_encounter_return_3 :
  Demo.summary
    (rebound_integrate Demo.plain Demo.env 10 10%float 1%float 1%float
       Demo.escaping_pair)
  = Some (3, 1%float, 1%float, [1],
          [EvGettimeofday;
           EvIntegratorPart1; EvBoundariesCheck; EvGravity; EvIntegratorPart2;
           EvBoundariesCheck; EvCollisionsSearch; EvCollisionsResolve;
           EvIntegratorSynchronize; EvGettimeofday; EvPrintRuntime])
  /\ escape_found 1%float
       (sim (rebound_step Demo.plain Demo.env Demo.escaping_pair)) = true
  /\ encounter_found 1%float
       (sim (rebound_step Demo.plain Demo.env Demo.escaping_pair)) = true.
Proof. repeat split; vm_compute; reflexivity. Qed.

(** C2 (witness): the same run, through the theorem. *)
Lemma encounter_overrides_escape_witness :
  exists wf,
    rebound_integrate Demo.plain Demo.env 10 10%float 1%float 1%float
      Demo.escaping_pair = Some (3, wf).
Proof.
  exact (proj2 (proj2
           (encounter_overrides_escape Demo.plain Demo.env 10%float 1%float
              1%float Demo.escaping_pair 0 8
              (snd (fst (prologue Demo.env 10%float Demo.escaping_pair)))
              (snd (prologue Demo.env 10%float Demo.escaping_pair))
              eq_refl eq_refl eq_refl eq_refl eq_refl eq_refl eq_refl))).
Defined.

(** C3 (counterexample).  No particle, [exact_finish_time] set, a step of
    20 towards the target time 10: the check before the loop overwrites
    [dt] with 10, the first pass finds no particle, and the function
    returns 1 at once.  [integrator_synchronize] has not been called and
    [dt] is left at 10, not restored to 20. *)
Lemma abort_skips_synchronization_and_restore :
  Demo.summary
    (rebound_integrate Demo.plain Demo.env 10 10%float 0%float 0%float
       Demo.empty_truncated)
  = Some (1, 0%float, 10%float, [], [EvGettimeofday; EvErrorNoParticles])
  /\ Rebound.dt (sim (@Demo.empty_truncated float _)) = 20%float.
Proof. split; vm_compute; reflexivity. Qed.

(** C3 (witness): the run of C1, which ends on an escape. *)
Lemma final_synchronization_and_restore_witness :
  exists code wf,
    rebound_integrate Demo.plain Demo.env 10 10%float 1%float 0%float
      Demo.escaping = Some (code, wf)
    /\ code = 2
    /\ trace wf
       = [EvGettimeofday;
          EvIntegratorPart1; EvBoundariesCheck; EvGravity; EvIntegratorPart2;
          EvBoundariesCheck; EvCollisionsSearch; EvCollisionsResolve;
          EvIntegratorSynchronize; EvGettimeofday; EvPrintRuntime]
    /\ Rebound.dt (sim wf) = 1%float.
Proof.
  assert (Hrun : exists wf,
             rebound_integrate Demo.plain Demo.env 10 10%float 1%float 0%float
               Demo.escaping = Some (2, wf)).
  { eexists. vm_compute. reflexivity. }
  destruct Hrun as [wf Hrun]. exists 2, wf. split; [exact Hrun |].
  split; [reflexivity |].
  destruct (final_synchronization_and_restore Demo.plain Demo.env 10 10%float
              1%float 0%float Demo.escaping 2 wf Hrun ltac:(discriminate))
    as [l [w' [Hloop [Hcode [Htrace [_ Hdt]]]]]].
  vm_compute in Hloop. inversion Hloop; subst l w'; clear Hloop.
  split; [exact Htrace | exact Hdt].
Defined.

(** C4 (counterexample).  The integrator out of safe mode, no
    [post_timestep_modifications] callback, collisions compiled in: the
    step calls no synchronization, and the collision search is given a
    state whose [is_synchronized] is 0. *)
Lemma collision_search_sees_unsynchronized_state :
  ext (rebound_step Demo.plain Demo.env (@Demo.unsafe float _)) = [0]
  /\ trace (rebound_step Demo.plain Demo.env (@Demo.unsafe float _))
     = [EvIntegratorPart1; EvBoundariesCheck; EvGravity; EvIntegratorPart2;
        EvBoundariesCheck; EvCollisionsSearch; EvCollisionsResolve].
Proof. split; vm_compute; reflexivity. Qed.

(** C7 (counterexample).  In a build that defines COLLISIONS_NONE the
    step ends with [integrator_part2]: there is no second boundary check
    and no collision search or resolution. *)
Lemma step_without_collisions :
  trace (rebound_step Demo.no_collisions Demo.env (@Demo.unsafe float _))
  = [EvIntegratorPart1; EvBoundariesCheck; EvGravity; EvIntegratorPart2].
Proof. vm_compute. reflexivity. Qed.

(** C5 (counterexample).  Binary64, time -1, step 0.75, target 0.1 and
    [exact_finish_time] set.  After the first step (to -0.25) the
    re-check cuts the step to [0.1 - (-0.25)], which rounds; the cut step
    ends at [-0.25 + 0.35], just below the target; the re-check adds the
    second mark and the loop ends: the run returns 0 with [t] different
    from [tmax], and [dt] restored to 0.75. *)
Lemma rounded_landing_misses_tmax :
  Demo.summary
    (rebound_integrate Demo.plain Demo.env 10 (dlit 1 (-1)) 0%float 0%float
       Demo.crossing_zero)
  = Some (0, 0x1.9999999999998p-4%float, 0x1.8p-1%float, [1; 1],
          [EvGettimeofday;
           EvIntegratorPart1; EvBoundariesCheck; EvGravity; EvIntegratorPart2;
           EvBoundariesCheck; EvCollisionsSearch; EvCollisionsResolve;
           EvIntegratorSynchronize;
           EvIntegratorPart1; EvBoundariesCheck; EvGravity; EvIntegratorPart2;
           EvBoundariesCheck; EvCollisionsSearch; EvCollisionsResolve;
           EvIntegratorSynchronize;
           EvIntegratorSynchronize; EvGettimeofday; EvPrintRuntime])
  /\ dlit 1 (-1) = 0x1.999999999999ap-4%float
  /\ option_map
       (fun p => match fst p with Next l => last_step l | Return _ => 0 end)
       (integrate_loop Demo.plain Demo.env (dlit 1 (-1)) 0%float 0%float
          (fst (fst (prologue Demo.env (dlit 1 (-1)) Demo.crossing_zero))) 10
          (snd (fst (prologue Demo.env (dlit 1 (-1)) Demo.crossing_zero)))
          (snd (prologue Demo.env (dlit 1 (-1)) (@Demo.crossing_zero float _))))
     = Some 2.
Proof. repeat split; vm_compute; reflexivity. Qed.

(** C5 (witness).  Binary64, time 0, step 0.3, target 1: after three
    steps the time is just below 0.9 and the re-check cuts the step;
    there [t + (1 - t)] is 1, so the fourth step lands on the target:
    the run ends with two marks, [t] equal to 1 and [dt] restored. *)
Lemma exact_finish_truncation_witness :
  exists wf,
    rebound_integrate Demo.plain Demo.env 10 1%float 0%float 0%float
      Demo.three_tenths = Some (0, wf)
    /\ Rebound.t (sim wf) = 1%float
    /\ Rebound.dt (sim wf) = dlit 3 (-1).
Proof.
  assert (H : exists l w',
             integrate_loop Demo.plain Demo.env 1%float 0%float 0%float
               (fst (fst (prologue Demo.env 1%float Demo.three_tenths))) 10
               (snd (fst (prologue Demo.env 1%float Demo.three_tenths)))
               (snd (prologue Demo.env 1%float (@Demo.three_tenths float _)))
             = Some (Next l, w')
             /\ last_step l = 2
             /\ ret_value l = 0
             /\ dt_last_done l = dlit 3 (-1)).
  { do 2 eexists. split; [vm_compute; reflexivity | repeat split]. }
  destruct H as [l [w' [Hloop [Hm [Hret Hdld]]]]].
  assert (Hsum : forall k l1 w1,
             passes Demo.plain Demo.env 1%float 0%float 0%float
               (fst (fst (prologue Demo.env 1%float Demo.three_tenths))) k
               (snd (fst (prologue Demo.env 1%float Demo.three_tenths)))
               (snd (prologue Demo.env 1%float (@Demo.three_tenths float _)))
             = Some (l1, w1) ->
             last_step l1 = 1 ->
             loop_cond 1%float
               (fst (fst (prologue Demo.env 1%float
                            (@Demo.three_tenths float _)))) l1 (sim w1)
             = true ->
             dadd (Rebound.t (sim w1)) (dsub 1%float (Rebound.t (sim w1)))
             = 1%float).
  { intros k l1 w1 Hk Hm1 _.
    destruct k as [| [| [| [| [| k]]]]]; vm_compute in Hk;
      try discriminate Hk; inversion Hk; subst l1 w1; clear Hk;
      try (vm_compute in Hm1; discriminate Hm1).
    vm_compute. reflexivity. }
  assert (Hirr : dlt (dmul 1%float
                        (fst (fst (prologue Demo.env 1%float
                                     (@Demo.three_tenths float _)))))
                     (dmul 1%float
                        (fst (fst (prologue Demo.env 1%float
                                     (@Demo.three_tenths float _)))))
                 = false)
    by apply ltb_irrefl.
  destruct (proj2 (proj2
              (exact_finish_truncation (ops := Binary64) Demo.plain Demo.env
                 1%float 0%float 0%float
                 (Demo.three_tenths (ops := Binary64))))
              Demo_step_advances_time
              (proj1 Demo_keeps_time) (proj1 (proj2 Demo_keeps_time))
              (proj2 (proj2 Demo_keeps_time))
              Hirr Hsum 10%nat l w' Hloop Hm)
    as [_ [wf [Hrun [Ht Hdt]]]].
  exists wf. rewrite Hret in Hrun. rewrite Hdld in Hdt.
  split; [exact Hrun |]. split; [exact Ht | exact Hdt].
Defined.

(** C6 (counterexample).  The state that [rebound_init] returns has no
    particle and time 0; integrated to the target time 0 it returns 0,
    not 1: the loop condition fails at once and the test of [N] is never
    made. *)
Lemma no_particles_at_target_returns_0 :
  Rebound.N (sim (@Demo.fresh float _)) = 0
  /\ Demo.summary
       (rebound_integrate Demo.plain Demo.env 10 0%float 0%float 0%float
          Demo.fresh)
     = Some (0, 0%float, 0x1.0624dd2f1a9fcp-10%float, [],
             [EvGettimeofday; EvIntegratorSynchronize; EvGettimeofday;
              EvPrintRuntime]).
Proof. split; vm_compute; reflexivity. Qed.

(** C6 (witness).  The same state integrated to the target time 10. *)
Lemma no_particles_abort_witness :
  exists wf,
    rebound_integrate Demo.plain Demo.env 10 10%float 0%float 0%float
      Demo.fresh = Some (1, wf)
    /\ Rebound.t (sim wf) = 0%float
    /\ trace wf = [EvGettimeofday; EvErrorNoParticles].
Proof.
  destruct (proj1
              (no_particles_abort (ops := Binary64) Demo.plain Demo.env 9
                 10%float 0%float 0%float (Demo.fresh (ops := Binary64)))
              ltac:(simpl; lia) ltac:(vm_compute; reflexivity)
              ltac:(vm_compute; reflexivity))
    as [wf [Hrun [Ht [Htrace _]]]].
  exists wf. split; [exact Hrun |]. split; [exact Ht | exact Htrace].
Defined.

(** C10 (counterexample).  One particle at time 5, target time 3, step 1:
    the time at entry has passed the target.  The [post_timestep]
    callback sets the time back to 0 at its priming call, before the
    loop condition is first tested; the run makes three steps and
    returns with [t] equal to 3, not to 5. *)
Lemma rewinding_callback_makes_steps :
  Demo.summary
    (rebound_integrate Demo.plain Cases.rewinding_env 10 3%float 0%float
       0%float Demo.past_target)
  = Some (0, 3%float, 1%float, [1; 1; 1],
          [EvGettimeofday; EvPostTimestep;
           EvIntegratorPart1; EvBoundariesCheck; EvGravity; EvIntegratorPart2;
           EvBoundariesCheck; EvCollisionsSearch; EvCollisionsResolve;
           EvPostTimestep;
           EvIntegratorPart1; EvBoundariesCheck; EvGravity; EvIntegratorPart2;
           EvBoundariesCheck; EvCollisionsSearch; EvCollisionsResolve;
           EvIntegratorSynchronize; EvPostTimestep;
           EvIntegratorPart1; EvBoundariesCheck; EvGravity; EvIntegratorPart2;
           EvBoundariesCheck; EvCollisionsSearch; EvCollisionsResolve;
           EvIntegratorSynchronize; EvPostTimestep;
           EvIntegratorSynchronize; EvGettimeofday; EvPrintRuntime])
  /\ Rebound.t (sim (@Demo.past_target float _)) = 5%float
  /\ Rebound.N (sim (@Demo.past_target float _)) = 1
  /\ dlt (dmul (Rebound.t (sim (@Demo.past_target float _)))
               (copysign1 (Rebound.dt (sim (@Demo.past_target float _)))))
         (dmul 3%float
               (copysign1 (Rebound.dt (sim (@Demo.past_target float _)))))
     = false.
Proof. repeat split; vm_compute; reflexivity. Qed.

(** C10 (witness).  The same state with callbacks that leave the time
    alone: the check before the loop overwrites [dt] with -2; on return
    [t] is 5 and [dt] is 1 again. *)
Lemma integrate_when_time_reached_witness :
  Rebound.dt (sim (snd (prologue Demo.env 3%float (@Demo.past_target float _))))
  = (-2)%float
  /\ exists wf,
       rebound_integrate Demo.plain Demo.env 10 3%float 0%float 0%float
         Demo.past_target = Some (0, wf)
       /\ trace wf
          = [EvGettimeofday; EvPostTimestep;
             EvIntegratorSynchronize; EvGettimeofday; EvPrintRuntime]
       /\ Rebound.t (sim wf) = 5%float
       /\ Rebound.dt (sim wf) = 1%float.
Proof.
  split; [vm_compute; reflexivity |].
  destruct (integrate_when_time_reached (ops := Binary64) Demo.plain Demo.env 9
              3%float 0%float 0%float (Demo.past_target (ops := Binary64))
              ltac:(vm_compute; reflexivity))
    as [wf [Hrun [Htrace [_ [_ [Hdt [_ Ht]]]]]]].
  exists wf. split; [exact Hrun |]. split; [exact Htrace |].
  split; [| exact Hdt].
  exact (Ht (proj1 Demo_keeps_time)
            (proj1 (proj2 (proj2 Demo_keeps_time) _))).
Defined.

(** ** Further properties of the code *)

Section Further.

Context {D : Type} {ops : DoubleOps D} {Ext : Type}.
Variable cfg : BuildConfig.
Variable env : Collaborators D Ext.

(** *** Runs as sequences of passes *)

Lemma body_next_inv (tmax maxR minD dtsign : D) (l l' : Locals)
    (w w' : World D Ext) :
  loop_body cfg env tmax maxR minD dtsign l w = (Next l', w') ->
  0 < Rebound.N (sim w)
  /\ w' = snd (advance cfg env tmax dtsign l w)
  /\ dt_last_done l' = dt_last_done (fst (advance cfg env tmax dtsign l w))
  /\ last_step l' = last_step (fst (advance cfg env tmax dtsign l w))
  /\ ret_value l'
     = monitor maxR minD (sim w') (ret_value l).
Proof.
  intros Hb. unfold loop_body in Hb.
  destruct (Rebound.N (sim w) <=? 0) eqn:HN; [discriminate Hb |].
  apply Z.leb_gt in HN.
  pose proof (advance_ret_value cfg env tmax dtsign l w) as Hret.
  destruct (advance cfg env tmax dtsign l w) as [la wa].
  inversion Hb; subst. simpl in *. rewrite Hret. auto.
Qed.

(** What every pass keeps, every state that a run reaches has. *)
Lemma passes_invariant (tmax maxR minD dtsign : D)
    (I : Locals -> World D Ext -> Prop) :
  (forall l w l' w',
     I l w ->
     loop_cond tmax dtsign l (sim w) = true ->
     loop_body cfg env tmax maxR minD dtsign l w = (Next l', w') ->
     I l' w') ->
  forall k l w l' w',
    passes cfg env tmax maxR minD dtsign k l w = Some (l', w') ->
    I l w -> I l' w'.
Proof.
  intros Hpass k. induction k as [| k IH]; intros l w l' w' Hk HI; simpl in Hk.
  - now inversion Hk; subst.
  - destruct (loop_cond tmax dtsign l (sim w)) eqn:Hc; [| discriminate Hk].
    destruct (loop_body cfg env tmax maxR minD dtsign l w) as [[c | l1] w1] eqn:Hb;
      [discriminate Hk |].
    apply (IH l1 w1 l' w' Hk). eapply Hpass; eauto.
Qed.

(** The two ways in which [rebound_integrate] returns. *)
Lemma rebound_integrate_cases (fuel : nat) (tmax maxR minD : D)
    (w : World D Ext) (code : Z) (wf : World D Ext) :
  let dtsign := fst (fst (prologue env tmax w)) in
  let l0 := snd (fst (prologue env tmax w)) in
  let w0 := snd (prologue env tmax w) in
  rebound_integrate cfg env fuel tmax maxR minD w = Some (code, wf) ->
  (exists k lk wk,
     passes cfg env tmax maxR minD dtsign k l0 w0 = Some (lk, wk)
     /\ loop_cond tmax dtsign lk (sim wk) = true
     /\ Rebound.N (sim wk) <= 0
     /\ code = 1
     /\ wf = emit EvErrorNoParticles wk)
  \/ (exists k l w',
        passes cfg env tmax maxR minD dtsign k l0 w0 = Some (l, w')
        /\ loop_cond tmax dtsign l (sim w') = false
        /\ (code, wf) = epilogue env l w').
Proof.
  intros dtsign l0 w0 Hrun. rewrite rebound_integrate_unfold in Hrun.
  fold dtsign l0 w0 in Hrun.
  destruct (integrate_loop cfg env tmax maxR minD dtsign fuel l0 w0)
    as [[[c | l] w'] |] eqn:Hloop; [| | discriminate Hrun].
  - left. apply loop_return_passes in Hloop.
    destruct Hloop as [Hc [k [lk [wk [Hk [Hcond [HN Hw]]]]]]].
    inversion Hrun; subst. exists k, lk, wk. auto.
  - right. apply loop_next_passes in Hloop. destruct Hloop as [k [Hk Hend]].
    exists k, l, w'. inversion Hrun. auto.
Qed.

(** A pass after which the condition fails is the last one. *)
Lemma last_pass_returns (tmax maxR minD : D) (w : World D Ext)
    (k fuel : nat) (l l' : Locals) (wk w' : World D Ext) :
  let dtsign := fst (fst (prologue env tmax w)) in
  passes cfg env tmax maxR minD dtsign k
    (snd (fst (prologue env tmax w))) (snd (prologue env tmax w)) = Some (l, wk) ->
  loop_cond tmax dtsign l (sim wk) = true ->
  loop_body cfg env tmax maxR minD dtsign l wk = (Next l', w') ->
  loop_cond tmax dtsign l' (sim w') = false ->
  rebound_integrate cfg env (k + S (S fuel)) tmax maxR minD w
  = Some (epilogue env l' w').
Proof.
  intros dtsign Hk Hc Hb Hend.
  rewrite rebound_integrate_unfold. fold dtsign.
  rewrite (passes_loop _ _ _ _ _ _ _ _ _ _ _ _ Hk).
  rewrite (loop_pass _ _ _ _ _ _ _ _ _ _ _ Hc Hb).
  now rewrite loop_ends.
Qed.

(** *** The value returned *)

(** X1.  [rebound_integrate] returns 0, 1, 2 or 3; it returns 2 only when
    [maxR] is not zero and 3 only when [minD] is not zero. *)
Theorem result_codes (fuel : nat) (tmax maxR minD : D) (w : World D Ext)
    (code : Z) (wf : World D Ext) :
  rebound_integrate cfg env fuel tmax maxR minD w = Some (code, wf) ->
  (code = 0 \/ code = 1 \/ code = 2 \/ code = 3)
  /\ (code = 2 -> dnonzero maxR = true)
  /\ (code = 3 -> dnonzero minD = true).
Proof.
  intros Hrun.
  destruct (rebound_integrate_cases fuel tmax maxR minD w code wf Hrun)
    as [[k [lk [wk [_ [_ [_ [Hc _]]]]]]] | [k [l [w' [Hk [_ He]]]]]].
  - subst code. repeat split; try discriminate; auto.
  - assert (HJ : ret_value l = 0
                 \/ (ret_value l = 2 /\ dnonzero maxR = true)
                 \/ (ret_value l = 3 /\ dnonzero minD = true)).
    { refine (passes_invariant tmax maxR minD _
                (fun l _ => ret_value l = 0
                            \/ (ret_value l = 2 /\ dnonzero maxR = true)
                            \/ (ret_value l = 3 /\ dnonzero minD = true))
                _ k _ _ l w' Hk _).
      - intros l1 w1 l2 w2 HJ _ Hb.
        apply body_next_inv in Hb. destruct Hb as [_ [_ [_ [_ Hret]]]].
        rewrite Hret, monitor_found.
        destruct (dnonzero minD); simpl.
        + destruct (encounter_found minD (sim w2)); [auto |].
          destruct (dnonzero maxR); simpl; [| exact HJ].
          destruct (escape_found maxR (sim w2)); [auto | exact HJ].
        + destruct (dnonzero maxR); simpl; [| exact HJ].
          destruct (escape_found maxR (sim w2)); [auto | exact HJ].
      - left. now rewrite prologue_locals. }
    unfold epilogue in He. inversion He; subst code.
    destruct HJ as [H | [[H Hm] | [H Hm]]]; rewrite H;
      repeat split; try discriminate; auto.
Qed.

(** X2.  The final-step marker is 0 or 1 when the loop is entered and
    never leaves the range 0 to 2: every state that a run reaches has it
    there, and so has the state in which the loop ends. *)
Theorem marks_bounded (tmax maxR minD : D) (w : World D Ext) (k : nat)
    (l : Locals) (wk : World D Ext) :
  passes cfg env tmax maxR minD (fst (fst (prologue env tmax w))) k
    (snd (fst (prologue env tmax w))) (snd (prologue env tmax w)) = Some (l, wk) ->
  (0 <= last_step (snd (fst (prologue env tmax w))) <= 1)
  /\ 0 <= last_step l <= 2.
Proof.
  intros Hk.
  assert (H0 : 0 <= last_step (snd (fst (prologue env tmax w))) <= 1).
  { rewrite prologue_locals. simpl. unfold precheck.
    destruct (finish_test tmax _ _); simpl; lia. }
  split; [exact H0 |].
  refine (passes_invariant tmax maxR minD _
            (fun l _ => 0 <= last_step l <= 2) _ k _ _ l wk Hk _);
    [| lia].
  intros l1 w1 l2 w2 HI Hc Hb.
  assert (Hlt : last_step l1 < 2).
  { unfold loop_cond in Hc. rewrite !andb_true_iff in Hc.
    destruct Hc as [[[_ Hm] _] _]. now apply Z.ltb_lt in Hm. }
  apply body_next_inv in Hb. destruct Hb as [_ [_ [_ [Hm _]]]].
  rewrite Hm, advance_unfold.
  destruct (finish_test tmax _ _); simpl; lia.
Qed.

(** *** Cancellation *)

(** X3.  When [exit_simulation] is not 0 at the first test of the loop
    condition (after the priming call of [post_timestep]),
    [rebound_integrate] makes no step and does not look at [N]: it calls
    [integrator_synchronize] and returns 0, and [dt] is what it was at
    entry. *)
Theorem cancelled_at_entry (fuel : nat) (tmax maxR minD : D) (w : World D Ext) :
  let w1 := call_post_timestep env (emit EvGettimeofday w) in
  Rebound.exit_simulation (sim w1) <> 0 ->
  exists wf,
    rebound_integrate cfg env (S fuel) tmax maxR minD w = Some (0, wf)
    /\ trace wf
       = trace w1 ++ [EvIntegratorSynchronize; EvGettimeofday; EvPrintRuntime]
    /\ Rebound.dt (sim wf) = Rebound.dt (sim w).
Proof.
  intros w1 Hexit.
  set (dtsign := copysign1 (Rebound.dt (sim w))).
  set (l0 := mkLocals (Rebound.dt (sim w)) (fst (precheck tmax dtsign w1)) 0).
  set (w0 := snd (precheck tmax dtsign w1)).
  destruct (precheck_frame tmax dtsign w1) as [_ [_ [Hex [_ Htr]]]].
  fold w0 in Hex, Htr.
  assert (Hrun : rebound_integrate cfg env (S fuel) tmax maxR minD w
                 = Some (epilogue env l0 w0)).
  { rewrite rebound_integrate_unfold, prologue_dtsign, prologue_locals,
      prologue_world.
    fold w1 dtsign l0 w0. rewrite loop_ends; [reflexivity |].
    unfold loop_cond. rewrite Hex. apply Z.eqb_neq in Hexit. rewrite Hexit.
    now rewrite andb_false_r. }
  destruct (epilogue_result env l0 w0) as [Hret [Htrace [_ Hdt]]].
  destruct (epilogue env l0 w0) as [c wf]. simpl in Hret, Htrace, Hdt.
  exists wf. subst c. split; [exact Hrun |]. split.
  - now rewrite Htrace, Htr.
  - exact Hdt.
Qed.

(** X4.  When a pass of the loop ends with [exit_simulation] not 0 (a
    callback or a collaborator has set it), that pass is completed, its
    scans included, and is the last one: [rebound_integrate] goes on to
    the final synchronization and returns the code that the scans of the
    pass have left. *)
Theorem cancellation_ends_loop (tmax maxR minD : D) (w : World D Ext)
    (k fuel : nat) (l l' : Locals) (wk w' : World D Ext) :
  let dtsign := fst (fst (prologue env tmax w)) in
  passes cfg env tmax maxR minD dtsign k
    (snd (fst (prologue env tmax w))) (snd (prologue env tmax w)) = Some (l, wk) ->
  loop_cond tmax dtsign l (sim wk) = true ->
  loop_body cfg env tmax maxR minD dtsign l wk = (Next l', w') ->
  Rebound.exit_simulation (sim w') <> 0 ->
  exists wf,
    rebound_integrate cfg env (k + S (S fuel)) tmax maxR minD w
    = Some (monitor maxR minD (sim w') (ret_value l), wf)
    /\ trace wf
       = trace w' ++ [EvIntegratorSynchronize; EvGettimeofday; EvPrintRuntime].
Proof.
  intros dtsign Hk Hc Hb Hexit.
  assert (Hend : loop_cond tmax dtsign l' (sim w') = false).
  { unfold loop_cond. apply Z.eqb_neq in Hexit. rewrite Hexit.
    now rewrite andb_false_r. }
  pose proof (last_pass_returns tmax maxR minD w k fuel l l' wk w' Hk Hc Hb Hend)
    as Hrun.
  apply body_next_inv in Hb. destruct Hb as [_ [_ [_ [_ Hret]]]].
  destruct (epilogue_result env l' w') as [Hcode [Htrace _]].
  destruct (epilogue env l' w') as [c wf]. simpl in Hcode, Htrace.
  exists wf. split; [| exact Htrace].
  rewrite Hrun. now rewrite Hcode, Hret.
Qed.

(** *** What the controller leaves alone *)

Lemma extern_preserves (P : Rebound.struct D -> Prop) (f : extern D Ext) :
  env_preserves env P -> In f (externs env) -> preserved_by P f.
Proof.
  intros [H _] Hin. rewrite Forall_forall in H. now apply H.
Qed.

Lemma call_keeps (P : Rebound.struct D -> Prop) (e : Event) (f : extern D Ext)
    (w : World D Ext) :
  preserved_by P f -> P (sim w) -> P (sim (call e f w)).
Proof. intros Hf HP. rewrite sim_call. now apply Hf. Qed.

Lemma invoke_keeps (P : Rebound.struct D -> Prop) (e : Event)
    (field : Rebound.struct D -> fnptr) (w : World D Ext) :
  env_preserves env P -> P (sim w) -> P (sim (invoke env e field w)).
Proof. intros [_ H] HP. unfold invoke. apply call_keeps; [apply H | exact HP]. Qed.

Ltac keep_call H :=
  apply call_keeps;
  [apply (extern_preserves _ _ H); simpl; tauto |].

Lemma step_tree_keeps (P : Rebound.struct D -> Prop) (w : World D Ext) :
  env_preserves env P -> P (sim w) -> P (sim (step_tree cfg env w)).
Proof.
  intros H HP. unfold step_tree, andThen, ifdef.
  destruct (TREE cfg), (MPI cfg), (GRAVITY_TREE cfg);
    repeat keep_call H; exact HP.
Qed.

Lemma step_forces_keeps (P : Rebound.struct D -> Prop) (w : World D Ext) :
  env_preserves env P -> P (sim w) -> P (sim (step_forces env w)).
Proof.
  intros H HP. unfold step_forces, andThen, when.
  repeat match goal with
         | |- context [if ?b then _ else _] => destruct b
         end;
    repeat first [apply invoke_keeps; [exact H |] | keep_call H]; exact HP.
Qed.

Lemma step_collisions_keeps (P : Rebound.struct D -> Prop) (w : World D Ext) :
  env_preserves env P -> P (sim w) -> P (sim (step_collisions cfg env w)).
Proof.
  intros H HP. unfold step_collisions, ifndef, ifdef, andThen.
  destruct (COLLISIONS_NONE cfg); simpl; repeat keep_call H; exact HP.
Qed.

Lemma rebound_step_keeps (P : Rebound.struct D -> Prop) (w : World D Ext) :
  env_preserves env P ->
  blind_to_flag P ->
  P (sim w) ->
  P (sim (rebound_step cfg env w)).
Proof.
  intros H Hflag HP. rewrite rebound_step_blocks.
  apply step_collisions_keeps; [exact H |].
  rewrite step_post_timestep_modifications_unfold.
  assert (H2 : P (sim (after_part2 cfg env w))).
  { unfold after_part2, before_forces, andThen.
    keep_call H. apply step_forces_keeps; [exact H |].
    apply step_tree_keeps; [exact H |]. repeat keep_call H. exact HP. }
  destruct (is_set _); [| exact H2].
  unfold assign. simpl. apply Hflag.
  apply invoke_keeps; [exact H |]. keep_call H. exact H2.
Qed.

Lemma call_post_timestep_keeps (P : Rebound.struct D -> Prop) (w : World D Ext) :
  env_preserves env P -> P (sim w) -> P (sim (call_post_timestep env w)).
Proof.
  intros H HP. unfold call_post_timestep, when.
  destruct (is_set _); [| exact HP]. now apply invoke_keeps.
Qed.

Lemma passes_keep (P : Rebound.struct D -> Prop) (tmax maxR minD dtsign : D)
    (k : nat) (l l' : Locals) (w w' : World D Ext) :
  env_preserves env P ->
  blind_to_flag P ->
  blind_to_dt P ->
  passes cfg env tmax maxR minD dtsign k l w = Some (l', w') ->
  P (sim w) -> P (sim w').
Proof.
  intros H Hflag Hdt Hk HP.
  refine (passes_invariant tmax maxR minD dtsign (fun _ w => P (sim w))
            _ k _ _ l' w' Hk HP).
  intros l1 w1 l2 w2 HI _ Hb.
  apply body_next_inv in Hb. destruct Hb as [_ [Hw _]]. subst w2.
  rewrite advance_unfold.
  assert (H1 : P (sim (ifdef (OPENGL cfg) (call EvDisplay (display env))
                         (rebound_step cfg env w1)))).
  { unfold ifdef. destruct (OPENGL cfg).
    - keep_call H. now apply rebound_step_keeps.
    - now apply rebound_step_keeps. }
  destruct (finish_test tmax _ _); simpl.
  - apply call_post_timestep_keeps; [exact H |].
    unfold assign. simpl. apply Hdt. keep_call H. exact H1.
  - now apply call_post_timestep_keeps.
Qed.

Lemma prologue_keeps (P : Rebound.struct D -> Prop) (tmax : D) (w : World D Ext) :
  env_preserves env P ->
  blind_to_dt P ->
  P (sim w) -> P (sim (snd (prologue env tmax w))).
Proof.
  intros H Hdt HP. rewrite prologue_world. unfold precheck.
  assert (H1 : P (sim (call_post_timestep env (emit EvGettimeofday w))))
    by now apply call_post_timestep_keeps.
  destruct (finish_test tmax _ _); simpl; [apply Hdt |]; exact H1.
Qed.

(** X5.  The controller writes two fields of the struct and no other:
    [rebound_step] writes [ri_whfast.recalculate_jacobi_this_timestep],
    and [rebound_integrate] writes [dt] besides.  So a property of the
    struct that every collaborator and callback keeps, and that does not
    depend on the flag, holds after a step if it holds before; and if it
    does not depend on [dt] either, it holds when [rebound_integrate]
    returns if it holds at entry, whatever the code returned. *)
Theorem controller_keeps_invariant (P : Rebound.struct D -> Prop) :
  env_preserves env P ->
  blind_to_flag P ->
  (forall w, P (sim w) -> P (sim (rebound_step cfg env w)))
  /\ (blind_to_dt P ->
      forall fuel tmax maxR minD w code wf,
        P (sim w) ->
        rebound_integrate cfg env fuel tmax maxR minD w = Some (code, wf) ->
        P (sim wf)).
Proof.
  intros H Hflag. split.
  - intros w HP. now apply rebound_step_keeps.
  - intros Hdt fuel tmax maxR minD w code wf HP Hrun.
    pose proof (prologue_keeps P tmax w H Hdt HP) as Hentry.
    destruct (rebound_integrate_cases fuel tmax maxR minD w code wf Hrun)
      as [[k [lk [wk [Hk [_ [_ [_ Hw]]]]]]] | [k [l [w' [Hk [_ He]]]]]].
    + subst wf. simpl.
      exact (passes_keep P _ _ _ _ k _ lk _ wk H Hflag Hdt Hk Hentry).
    + destruct (epilogue_result env l w') as [_ [_ [Hsim _]]].
      rewrite <- He in Hsim. simpl in Hsim. rewrite Hsim.
      apply Hdt. apply (extern_preserves _ _ H); [simpl; tauto |].
      exact (passes_keep P _ _ _ _ k _ l _ w' H Hflag Hdt Hk Hentry).
Qed.

(** *** The scans and the particles they read *)

Lemma existsb_ext_in (A : Type) (f g : A -> bool) (l : list A) :
  (forall a, In a l -> f a = g a) -> existsb f l = existsb g l.
Proof.
  induction l as [| a l IH]; intros H; simpl.
  - reflexivity.
  - rewrite (H a) by now left. rewrite IH; [reflexivity |].
    intros b Hb. apply H. now right.
Qed.

Lemma nth_error_firstn_below (A : Type) (l : list A) (n i : nat) :
  (i < n)%nat -> nth_error (firstn n l) i = nth_error l i.
Proof.
  revert l i. induction n as [| n IH]; intros l i Hi; [lia |].
  destruct l as [| a l]; [reflexivity |].
  destruct i as [| i]; [reflexivity |].
  simpl. apply IH. lia.
Qed.

Lemma nth_error_same_prefix (A : Type) (l l' : list A) (n i : nat) :
  firstn n l = firstn n l' -> (i < n)%nat -> nth_error l i = nth_error l' i.
Proof.
  intros H Hi.
  rewrite <- (nth_error_firstn_below A l n i Hi),
    <- (nth_error_firstn_below A l' n i Hi).
  now rewrite H.
Qed.

(** X6.  With no particle to monitor ([N - N_megno <= 0]) the two scans
    leave the result code as it is, whatever [maxR] and [minD]; with one
    particle to monitor the close-encounter scan does, there being no
    pair. *)
Theorem scans_need_particles (maxR minD : D) (r : Rebound.struct D) (ret : Z) :
  (Rebound.N r - Rebound.N_megno r <= 0 -> monitor maxR minD r ret = ret)
  /\ (Rebound.N r - Rebound.N_megno r <= 1 -> encounter_scan minD r ret = ret).
Proof.
  split.
  - intros Hn. unfold monitor, escape_scan, encounter_scan, upto.
    replace (Z.to_nat (Rebound.N r - Rebound.N_megno r)) with O by lia.
    simpl. destruct (dnonzero maxR), (dnonzero minD); reflexivity.
  - intros Hn. unfold encounter_scan, upto.
    assert (Hcases : Z.to_nat (Rebound.N r - Rebound.N_megno r) = O
                     \/ Z.to_nat (Rebound.N r - Rebound.N_megno r) = 1%nat)
      by lia.
    destruct Hcases as [H | H]; rewrite H; [reflexivity |].
    cbn [seq fold_left].
    destruct (nth_error (Rebound.particles r) 0); reflexivity.
Qed.

(** X7.  The scans read the counts [N] and [N_megno] and the first
    [N - N_megno] particles, and nothing else: on two structs that agree
    on these they leave the same result code.  The variational particles
    at the end of the array, and every other field, do not matter. *)
Theorem scans_ignore_variational (maxR minD : D) (n : nat)
    (r r' : Rebound.struct D) (ret : Z) :
  same_monitored n r r' ->
  monitor maxR minD r ret = monitor maxR minD r' ret.
Proof.
  intros [Hn [Hn' Hps]].
  assert (Hesc : escape_found maxR r = escape_found maxR r').
  { unfold escape_found, upto. rewrite Hn, Hn'.
    apply existsb_ext_in. intros i Hi. apply in_seq in Hi.
    rewrite (nth_error_same_prefix _ _ _ n i Hps) by lia. reflexivity. }
  assert (Henc : encounter_found minD r = encounter_found minD r').
  { unfold encounter_found, upto. rewrite Hn, Hn'.
    apply existsb_ext_in. intros i Hi. apply in_seq in Hi.
    rewrite (nth_error_same_prefix _ _ _ n i Hps) by lia.
    destruct (nth_error (Rebound.particles r') i) as [pi |]; [| reflexivity].
    apply existsb_ext_in. intros j Hj. apply in_seq in Hj.
    rewrite (nth_error_same_prefix _ _ _ n j Hps) by lia. reflexivity. }
  rewrite !monitor_found, Hesc, Henc. reflexivity.
Qed.

(** *** Initialization, then integration *)

(** X8.  The struct that [rebound_init] returns has no particle: passed
    to [rebound_integrate] with a target time ahead of its time 0, in the
    direction of its step 0.001, it makes the function return 1 at once,
    with no call to any collaborator and the struct untouched; with a
    target time that is not ahead, the function returns 0 after the
    final synchronization. *)
Theorem integrate_after_init (fuel : nat) (tmax maxR minD : D)
    (rebound_show_logo : Z) (x : Ext) :
  let dtsign := copysign1 (dlit 1 (-3)) in
  let ahead := dlt (dmul (dlit 0 0) dtsign) (dmul tmax dtsign) in
  exists tr,
    rebound_init cfg env rebound_show_logo x
    = (InitOk init_fields, tools_init_srand env x, tr)
    /\ (ahead = true ->
        rebound_integrate cfg env (S fuel) tmax maxR minD
          (mkWorld init_fields (tools_init_srand env x) tr)
        = Some (1, mkWorld init_fields (tools_init_srand env x)
                     (tr ++ [EvGettimeofday; EvErrorNoParticles])))
    /\ (ahead = false ->
        exists wf,
          rebound_integrate cfg env (S fuel) tmax maxR minD
            (mkWorld init_fields (tools_init_srand env x) tr)
          = Some (0, wf)
          /\ trace wf
             = tr ++ [EvGettimeofday; EvIntegratorSynchronize; EvGettimeofday;
                      EvPrintRuntime]).
Proof.
  intros dtsign ahead. eexists. split; [reflexivity |].
  set (w := mkWorld init_fields (tools_init_srand env x) _).
  assert (Hw1 : call_post_timestep env (emit EvGettimeofday w)
                = emit EvGettimeofday w) by reflexivity.
  assert (Hpre : precheck tmax dtsign (emit EvGettimeofday w)
                 = (0, emit EvGettimeofday w)).
  { unfold precheck, finish_test. simpl. now rewrite andb_false_r. }
  assert (Hcond : loop_cond tmax dtsign (mkLocals (dlit 1 (-3)) 0 0)
                    (sim (emit EvGettimeofday w)) = ahead).
  { unfold loop_cond. simpl. fold ahead. now rewrite !andb_true_r. }
  split.
  - intros Hahead.
    rewrite rebound_integrate_unfold, prologue_dtsign, prologue_locals,
      prologue_world.
    simpl Rebound.dt. fold dtsign. rewrite Hw1, Hpre. simpl fst. simpl snd.
    rewrite loop_abort; [| now rewrite Hcond | simpl; lia].
    unfold emit. simpl. now rewrite <- app_assoc.
  - intros Hahead.
    assert (Hrun : rebound_integrate cfg env (S fuel) tmax maxR minD w
                   = Some (epilogue env (mkLocals (dlit 1 (-3)) 0 0)
                             (emit EvGettimeofday w))).
    { rewrite rebound_integrate_unfold, prologue_dtsign, prologue_locals,
        prologue_world.
      simpl Rebound.dt. fold dtsign. rewrite Hw1, Hpre. simpl fst. simpl snd.
      rewrite loop_ends; [reflexivity | now rewrite Hcond]. }
    destruct (epilogue_result env (mkLocals (dlit 1 (-3)) 0 0)
                (emit EvGettimeofday w)) as [Hret [Htrace _]].
    destruct (epilogue env _ _) as [c wf]. simpl in Hret, Htrace.
    exists wf. subst c. split; [exact Hrun |].
    rewrite Htrace. simpl. now rewrite <- app_assoc.
Qed.

(** *** Time over the passes *)

Lemma marks_monotone (tmax maxR minD dtsign : D) (k : nat) (l l' : Locals)
    (w w' : World D Ext) :
  passes cfg env tmax maxR minD dtsign k l w = Some (l', w') ->
  last_step l <= last_step l'.
Proof.
  intros Hk.
  refine (passes_invariant tmax maxR minD dtsign
            (fun l1 _ => last_step l <= last_step l1) _ k _ _ l' w' Hk _);
    [| lia].
  intros l1 w1 l2 w2 HI _ Hb.
  apply body_next_inv in Hb. destruct Hb as [_ [_ [_ [Hm _]]]].
  rewrite Hm, advance_unfold. destruct (finish_test tmax _ _); simpl; lia.
Qed.

Lemma iter_shift (A : Type) (f : A -> A) (k : nat) (a : A) :
  Nat.iter k f (f a) = Nat.iter (S k) f a.
Proof. induction k as [| k IH]; simpl; [reflexivity | now rewrite IH]. Qed.

(** X9.  While no final-step mark is set, the controller leaves [t] and
    [dt] to the integrator: with steps that advance [t] by [dt] and keep
    [dt], and a display and callbacks that leave both alone, [k] passes
    of the loop that end with no mark end with [dt] unchanged and with
    [t] equal to the time before them plus [dt], added [k] times in the
    arithmetic of the code. *)
Theorem time_after_passes (tmax maxR minD dtsign : D) (k : nat)
    (l l' : Locals) (w w' : World D Ext) :
  step_advances_time cfg env ->
  step_keeps_dt cfg env ->
  keeps_time (display env) /\ keeps_dt (display env) ->
  (forall p, keeps_time (fn_code env p) /\ keeps_dt (fn_code env p)) ->
  passes cfg env tmax maxR minD dtsign k l w = Some (l', w') ->
  0 <= last_step l ->
  last_step l' = 0 ->
  Rebound.t (sim w')
  = Nat.iter k (fun t => dadd t (Rebound.dt (sim w))) (Rebound.t (sim w))
  /\ Rebound.dt (sim w') = Rebound.dt (sim w).
Proof.
  intros Hstep Hkeep [Hdisp_t Hdisp_dt] Hhooks.
  revert l w. induction k as [| k IH]; intros l w Hk H0 Hend; simpl in Hk.
  - inversion Hk; subst. now split.
  - destruct (loop_cond tmax dtsign l (sim w)); [| discriminate Hk].
    destruct (loop_body cfg env tmax maxR minD dtsign l w) as [[c | l1] w1] eqn:Hb;
      [discriminate Hk |].
    pose proof (marks_monotone _ _ _ _ _ _ _ _ _ Hk) as Hmono.
    apply body_next_inv in Hb. destruct Hb as [_ [Hw [_ [Hm _]]]].
    rewrite advance_unfold in Hw, Hm.
    set (w2 := ifdef (OPENGL cfg) (call EvDisplay (display env))
                 (rebound_step cfg env w)) in *.
    assert (Ht2 : Rebound.t (sim w2)
                  = dadd (Rebound.t (sim w)) (Rebound.dt (sim w))).
    { unfold w2, ifdef. destruct (OPENGL cfg).
      - rewrite sim_call, Hdisp_t. apply Hstep.
      - apply Hstep. }
    assert (Hdt2 : Rebound.dt (sim w2) = Rebound.dt (sim w)).
    { unfold w2, ifdef. destruct (OPENGL cfg).
      - rewrite sim_call, Hdisp_dt. apply Hkeep.
      - apply Hkeep. }
    destruct (finish_test tmax dtsign (sim w2)); simpl in Hw, Hm; [lia |].
    assert (Ht1 : Rebound.t (sim w1)
                  = dadd (Rebound.t (sim w)) (Rebound.dt (sim w))).
    { subst w1. rewrite time_call_post_timestep by (intros p; apply Hhooks).
      exact Ht2. }
    assert (Hdt1 : Rebound.dt (sim w1) = Rebound.dt (sim w)).
    { subst w1. rewrite dt_call_post_timestep by (intros p; apply Hhooks).
      exact Hdt2. }
    destruct (IH l1 w1 Hk ltac:(lia) Hend) as [Ht Hdt].
    rewrite Ht, Hdt, Hdt1, Ht1. split; [| reflexivity].
    apply (iter_shift D (fun t => dadd t (Rebound.dt (sim w)))).
Qed.

(** *** How often the callback is called *)

Lemma calls_of_app (e : Event) (tr tr' : list Event) :
  calls_of e (tr ++ tr') = (calls_of e tr + calls_of e tr')%nat.
Proof. unfold calls_of. now rewrite filter_app, length_app. Qed.

Lemma step_calls (w : World D Ext) :
  calls_of EvIntegratorPart1 (trace (rebound_step cfg env w))
  = S (calls_of EvIntegratorPart1 (trace w))
  /\ calls_of EvPostTimestep (trace (rebound_step cfg env w))
     = calls_of EvPostTimestep (trace w).
Proof.
  rewrite rebound_step_blocks, trace_step_collisions,
    trace_step_post_timestep_modifications, trace_after_part2.
  rewrite !calls_of_app.
  unfold collision_events, hook_events, force_events, tree_events.
  destruct (COLLISIONS_NONE cfg), (TREE cfg), (MPI cfg), (GRAVITY_TREE cfg),
    (is_set (Rebound.post_timestep_modifications _)),
    (negb (Rebound.N_megno _ =? 0)), (is_set (Rebound.additional_forces _));
    cbn; lia.
Qed.

(** X10.  As long as the [post_timestep] callback stays set (no
    collaborator or callback changes the pointer), [rebound_integrate]
    calls it once before the first step and once after every step: when
    the function returns, whatever the code, it has called the callback
    once more than it has called [integrator_part1]. *)
Theorem post_timestep_calls (p : fnptr) (fuel : nat) (tmax maxR minD : D)
    (w : World D Ext) (code : Z) (wf : World D Ext) :
  is_set p = true ->
  env_preserves env (fun r => Rebound.post_timestep r = p) ->
  Rebound.post_timestep (sim w) = p ->
  rebound_integrate cfg env fuel tmax maxR minD w = Some (code, wf) ->
  (calls_of EvPostTimestep (trace wf) + calls_of EvIntegratorPart1 (trace w)
   = calls_of EvPostTimestep (trace w) + calls_of EvIntegratorPart1 (trace wf) + 1)%nat.
Proof.
  intros Hset H Hp Hrun.
  set (P := fun r : Rebound.struct D => Rebound.post_timestep r = p) in *.
  assert (Hflag : blind_to_flag P) by (intros r Hr; exact Hr).
  assert (Hdt : blind_to_dt P) by (intros v r Hr; exact Hr).
  set (w0 := snd (prologue env tmax w)).
  assert (Hhook : forall w1, P (sim w1) ->
             trace (call_post_timestep env w1) = trace w1 ++ [EvPostTimestep]).
  { intros w1 H1. rewrite trace_call_post_timestep.
    unfold P in H1. now rewrite H1, Hset. }
  assert (Hentry : P (sim w0)
                   /\ calls_of EvPostTimestep (trace w0)
                      = S (calls_of EvPostTimestep (trace w))
                   /\ calls_of EvIntegratorPart1 (trace w0)
                      = calls_of EvIntegratorPart1 (trace w)).
  { split; [now apply prologue_keeps |].
    unfold w0. rewrite prologue_world.
    destruct (precheck_frame tmax (copysign1 (Rebound.dt (sim w)))
                (call_post_timestep env (emit EvGettimeofday w)))
      as [_ [_ [_ [_ Htr]]]].
    rewrite Htr, Hhook by exact Hp.
    simpl. rewrite !calls_of_app. cbn. lia. }
  destruct Hentry as [HP0 [Hpt0 Hp10]].
  assert (Hpasses : forall k l w',
             passes cfg env tmax maxR minD (fst (fst (prologue env tmax w))) k
               (snd (fst (prologue env tmax w))) w0 = Some (l, w') ->
             (calls_of EvPostTimestep (trace w')
              + calls_of EvIntegratorPart1 (trace w)
              = calls_of EvPostTimestep (trace w)
                + calls_of EvIntegratorPart1 (trace w') + 1)%nat).
  { intros k l w' Hk.
    refine (proj2 (passes_invariant tmax maxR minD _
              (fun _ w1 =>
                 P (sim w1)
                 /\ (calls_of EvPostTimestep (trace w1)
                     + calls_of EvIntegratorPart1 (trace w)
                     = calls_of EvPostTimestep (trace w)
                       + calls_of EvIntegratorPart1 (trace w1) + 1)%nat)
              _ k _ _ l w' Hk _)); [| split; [exact HP0 | lia]].
    intros l1 w1 l2 w2 [HP1 Hcount] Hc Hb.
    split.
    { exact (passes_keep P tmax maxR minD _ 1 l1 l2 w1 w2 H Hflag Hdt
               ltac:(simpl; now rewrite Hc, Hb) HP1). }
    apply body_next_inv in Hb. destruct Hb as [_ [Hw _]]. subst w2.
    rewrite advance_unfold.
    destruct (step_calls w1) as [Hs1 Hs2].
    assert (HPs : P (sim (rebound_step cfg env w1)))
      by now apply rebound_step_keeps.
    set (w2 := ifdef (OPENGL cfg) (call EvDisplay (display env))
                 (rebound_step cfg env w1)).
    assert (H2 : P (sim w2)
                 /\ calls_of EvIntegratorPart1 (trace w2)
                    = S (calls_of EvIntegratorPart1 (trace w1))
                 /\ calls_of EvPostTimestep (trace w2)
                    = calls_of EvPostTimestep (trace w1)).
    { unfold w2, ifdef. destruct (OPENGL cfg).
      - split; [keep_call H; exact HPs |].
        rewrite trace_call, !calls_of_app. cbn. lia.
      - auto. }
    destruct H2 as [HP2 [H21 H22]].
    destruct (finish_test tmax _ (sim w2)); simpl.
    - rewrite Hhook.
      + unfold assign. simpl. rewrite trace_call, !calls_of_app. cbn. lia.
      + unfold assign. simpl. apply Hdt. keep_call H. exact HP2.
    - rewrite Hhook by exact HP2. rewrite !calls_of_app. cbn. lia. }
  destruct (rebound_integrate_cases fuel tmax maxR minD w code wf Hrun)
    as [[k [lk [wk [Hk [_ [_ [_ Hw]]]]]]] | [k [l [w' [Hk [_ He]]]]]].
  - subst wf. simpl. rewrite !calls_of_app. cbn.
    pose proof (Hpasses k lk wk Hk). lia.
  - destruct (epilogue_result env l w') as [_ [Htrace _]].
    rewrite <- He in Htrace. simpl in Htrace. rewrite Htrace, !calls_of_app.
    cbn. pose proof (Hpasses k l w' Hk). lia.
Qed.

End Further.

(** ** Runs in binary64 *)

Section Binary64Runs.

Context {Ext : Type}.
(** The sign bit of the NaN that [dt] may be. *)
Variable nan_sign : bool.
Variable cfg : BuildConfig.
Variable env : Collaborators float Ext.

Lemma ltb_mul_nan (a s : float) :
  PrimFloat.ltb a (PrimFloat.mul PrimFloat.nan s) = false.
Proof.
  rewrite ltb_spec, mul_spec.
  replace (Prim2SF PrimFloat.nan) with S754_nan by (vm_compute; reflexivity).
  unfold SF64mul, SFmul, SFltb.
  destruct (Prim2SF a); simpl; reflexivity.
Qed.

Lemma leb_mul_nan (a s : float) :
  PrimFloat.leb (PrimFloat.mul PrimFloat.nan s) a = false.
Proof.
  rewrite leb_spec, mul_spec.
  replace (Prim2SF PrimFloat.nan) with S754_nan by (vm_compute; reflexivity).
  unfold SF64mul, SFmul, SFleb.
  destruct (Prim2SF a); simpl; reflexivity.
Qed.

(** X11.  In binary64, a target time that is not a number ends
    [rebound_integrate] at once, on any state and with any
    collaborators, whatever the sign of [dt] (that of a NaN included):
    both comparisons with [tmax] are false, so [dt] is not truncated and
    the loop is not entered; the function makes the priming call of the
    callback and the final synchronization and returns 0, with [dt] what
    it was at entry. *)
Theorem nan_target_returns_0 (fuel : nat) (maxR minD : float)
    (w : World float Ext) :
  exists wf,
    rebound_integrate (ops := Binary64_signed nan_sign) cfg env (S fuel)
      PrimFloat.nan maxR minD w = Some (0, wf)
    /\ trace wf
       = trace w
         ++ [EvGettimeofday]
         ++ (if is_set (Rebound.post_timestep (sim w)) then [EvPostTimestep] else [])
         ++ [EvIntegratorSynchronize; EvGettimeofday; EvPrintRuntime]
    /\ sim wf
       = Rebound.set_dt (Rebound.dt (sim w))
           (fst (integrator_synchronize env
                   (sim (call_post_timestep env (emit EvGettimeofday w)))
                   (ext (call_post_timestep env (emit EvGettimeofday w))))).
Proof.
  set (w1 := call_post_timestep env (emit EvGettimeofday w)).
  set (dtsign := @copysign1 float (Binary64_signed nan_sign) (Rebound.dt (sim w))).
  assert (Hpre : precheck (ops := Binary64_signed nan_sign) PrimFloat.nan
                   dtsign w1 = (0, w1)).
  { unfold precheck, finish_test, dge. simpl dle. simpl dmul.
    now rewrite leb_mul_nan. }
  assert (Hrun : rebound_integrate (ops := Binary64_signed nan_sign) cfg env
                   (S fuel) PrimFloat.nan maxR minD w
                 = Some (epilogue env (mkLocals (Rebound.dt (sim w)) 0 0) w1)).
  { rewrite rebound_integrate_unfold, prologue_dtsign, prologue_locals,
      prologue_world.
    fold w1 dtsign. rewrite Hpre. simpl fst. simpl snd.
    rewrite loop_ends; [reflexivity |].
    unfold loop_cond. simpl dlt. simpl dmul. now rewrite ltb_mul_nan. }
  destruct (epilogue_result env (mkLocals (Rebound.dt (sim w)) 0 0) w1)
    as [Hret [Htrace [Hsim _]]].
  destruct (epilogue env _ w1) as [c wf]. simpl in Hret, Htrace, Hsim.
  exists wf. subst c. split; [exact Hrun |]. split; [| exact Hsim].
  rewrite Htrace. unfold w1. rewrite trace_call_post_timestep. simpl.
  rewrite <- !app_assoc. reflexivity.
Qed.

End Binary64Runs.

(** ** Fixed-step runs

    Runs without monitoring, whose collaborators keep the step size, the
    particles and the flags.  What the loop does is then decided by the
    times [t], [t + dt], [(t + dt) + dt], ... as the arithmetic of the
    code computes them, and by the comparisons of the code on them. *)

Section FixedStepRuns.

Context {D : Type} {ops : DoubleOps D} {Ext : Type}.
Variable cfg : BuildConfig.
Variable env : Collaborators D Ext.

Variables (tmax maxR minD s : D).
Variable exact : bool.

Hypothesis Hfixed : fixed_step cfg env.
Hypothesis Hkeeps : env_preserves env (running exact).
Hypothesis HmaxR : dnonzero maxR = false.
Hypothesis HminD : dnonzero minD = false.

Lemma running_blind :
  blind_to_flag (D := D) (running exact) /\ blind_to_dt (D := D) (running exact).
Proof. split; [intros r Hr | intros v r Hr]; exact Hr. Qed.

(** The state after the step and the display of a pass. *)
Lemma after_step (w : World D Ext) :
  running exact (sim w) ->
  let w2 := ifdef (OPENGL cfg) (call EvDisplay (display env))
              (rebound_step cfg env w) in
  Rebound.t (sim w2) = dadd (Rebound.t (sim w)) (Rebound.dt (sim w))
  /\ Rebound.dt (sim w2) = Rebound.dt (sim w)
  /\ running exact (sim w2)
  /\ calls_of EvIntegratorPart1 (trace w2)
     = S (calls_of EvIntegratorPart1 (trace w)).
Proof.
  intros Hrun w2.
  destruct Hfixed as [Hstep [Hdt [_ [[Hdisp_t Hdisp_dt] _]]]].
  destruct running_blind as [Hflag _].
  pose proof (rebound_step_keeps cfg env (running exact) w Hkeeps Hflag Hrun)
    as Hrun'.
  destruct (step_calls cfg env w) as [Hcalls _].
  unfold w2, ifdef. destruct (OPENGL cfg).
  - split; [| split; [| split]].
    + rewrite sim_call, Hdisp_t. apply Hstep.
    + rewrite sim_call, Hdisp_dt. apply Hdt.
    + apply call_keeps; [| exact Hrun'].
      apply (extern_preserves env _ _ Hkeeps). simpl. tauto.
    + rewrite trace_call, calls_of_app, Hcalls. cbn. lia.
  - split; [apply Hstep | split; [apply Hdt | split; [exact Hrun' | exact Hcalls]]].
Qed.

(** The callback at the end of a pass, and before the loop. *)
Lemma after_callback (w : World D Ext) :
  running exact (sim w) ->
  Rebound.t (sim (call_post_timestep env w)) = Rebound.t (sim w)
  /\ Rebound.dt (sim (call_post_timestep env w)) = Rebound.dt (sim w)
  /\ running exact (sim (call_post_timestep env w))
  /\ calls_of EvIntegratorPart1 (trace (call_post_timestep env w))
     = calls_of EvIntegratorPart1 (trace w).
Proof.
  intros Hrun. destruct Hfixed as [_ [_ [_ [_ Hhooks]]]].
  rewrite time_call_post_timestep by (intros p; apply Hhooks).
  rewrite dt_call_post_timestep by (intros p; apply Hhooks).
  split; [reflexivity | split; [reflexivity | split]].
  - now apply call_post_timestep_keeps.
  - rewrite trace_call_post_timestep, calls_of_app.
    destruct (is_set _); cbn; lia.
Qed.

Lemma cond_running (l : Locals) (r : Rebound.struct D) :
  running exact r ->
  ret_value l = 0 ->
  loop_cond tmax s l r
  = dlt (dmul (Rebound.t r) s) (dmul tmax s) && (last_step l <? 2).
Proof.
  intros [_ [Hexit _]] Hret. unfold loop_cond.
  rewrite Hret, Hexit. simpl. now rewrite !andb_true_r.
Qed.

Lemma finish_test_running (r : Rebound.struct D) :
  running exact r ->
  finish_test tmax s r
  = dge (dmul (dadd (Rebound.t r) (Rebound.dt r)) s) (dmul tmax s) && exact.
Proof. intros [_ [_ Hexact]]. unfold finish_test. now rewrite Hexact. Qed.

Lemma monitor_off (r : Rebound.struct D) (ret : Z) :
  monitor maxR minD r ret = ret.
Proof. unfold monitor. now rewrite HmaxR, HminD. Qed.

(** A pass of the loop, when the time is before [tmax]. *)
Lemma running_pass (fuel : nat) (l : Locals) (w : World D Ext) :
  running exact (sim w) ->
  ret_value l = 0 ->
  last_step l < 2 ->
  dlt (dmul (Rebound.t (sim w)) s) (dmul tmax s) = true ->
  integrate_loop cfg env tmax maxR minD s (S fuel) l w
  = integrate_loop cfg env tmax maxR minD s fuel
      (mkLocals (dt_last_done (fst (advance cfg env tmax s l w)))
                (last_step (fst (advance cfg env tmax s l w))) 0)
      (snd (advance cfg env tmax s l w)).
Proof.
  intros Hrun Hret Hmarks Hlt.
  assert (Hc : loop_cond tmax s l (sim w) = true).
  { rewrite cond_running by assumption.
    apply Z.ltb_lt in Hmarks. now rewrite Hlt, Hmarks. }
  rewrite (loop_pass cfg env tmax maxR minD s fuel l _ w _ Hc
             (body_next cfg env tmax maxR minD s l w (proj1 Hrun))).
  now rewrite monitor_off, advance_ret_value, Hret.
Qed.

(** A pass whose re-check does not truncate. *)
Lemma free_pass (fuel : nat) (l : Locals) (w : World D Ext) :
  running exact (sim w) ->
  ret_value l = 0 ->
  last_step l < 2 ->
  dlt (dmul (Rebound.t (sim w)) s) (dmul tmax s) = true ->
  dge (dmul (dadd (dadd (Rebound.t (sim w)) (Rebound.dt (sim w)))
                  (Rebound.dt (sim w))) s) (dmul tmax s)
  && exact = false ->
  exists w1,
    integrate_loop cfg env tmax maxR minD s (S fuel) l w
    = integrate_loop cfg env tmax maxR minD s fuel
        (mkLocals (Rebound.dt (sim w)) (last_step l) 0) w1
    /\ Rebound.t (sim w1) = dadd (Rebound.t (sim w)) (Rebound.dt (sim w))
    /\ Rebound.dt (sim w1) = Rebound.dt (sim w)
    /\ running exact (sim w1)
    /\ calls_of EvIntegratorPart1 (trace w1)
       = S (calls_of EvIntegratorPart1 (trace w)).
Proof.
  intros Hrun Hret Hmarks Hlt Htest.
  destruct (after_step w Hrun) as [Ht2 [Hdt2 [Hrun2 Hcalls2]]].
  set (w2 := ifdef (OPENGL cfg) (call EvDisplay (display env))
               (rebound_step cfg env w)) in *.
  destruct (after_callback w2 Hrun2) as [Ht1 [Hdt1 [Hrun1 Hcalls1]]].
  exists (call_post_timestep env w2).
  split; [| rewrite Ht1, Hdt1, Hcalls1; auto].
  rewrite running_pass by assumption.
  rewrite advance_unfold. fold w2.
  rewrite (finish_test_running (sim w2) Hrun2), Ht2, Hdt2, Htest.
  reflexivity.
Qed.

(** A pass whose re-check truncates the next step. *)
Lemma truncating_pass (fuel : nat) (l : Locals) (w : World D Ext) :
  running exact (sim w) ->
  ret_value l = 0 ->
  last_step l < 2 ->
  dlt (dmul (Rebound.t (sim w)) s) (dmul tmax s) = true ->
  dge (dmul (dadd (dadd (Rebound.t (sim w)) (Rebound.dt (sim w)))
                  (Rebound.dt (sim w))) s) (dmul tmax s)
  && exact = true ->
  exists w1,
    integrate_loop cfg env tmax maxR minD s (S fuel) l w
    = integrate_loop cfg env tmax maxR minD s fuel
        (mkLocals (dt_last_done l) (last_step l + 1) 0) w1
    /\ Rebound.t (sim w1) = dadd (Rebound.t (sim w)) (Rebound.dt (sim w))
    /\ Rebound.dt (sim w1)
       = dsub tmax (dadd (Rebound.t (sim w)) (Rebound.dt (sim w)))
    /\ running exact (sim w1)
    /\ calls_of EvIntegratorPart1 (trace w1)
       = S (calls_of EvIntegratorPart1 (trace w)).
Proof.
  intros Hrun Hret Hmarks Hlt Htest.
  destruct (after_step w Hrun) as [Ht2 [Hdt2 [Hrun2 Hcalls2]]].
  set (w2 := ifdef (OPENGL cfg) (call EvDisplay (display env))
               (rebound_step cfg env w)) in *.
  set (w3 := assign (fun r => Rebound.set_dt (dsub tmax (Rebound.t r)) r)
               (call EvIntegratorSynchronize (integrator_synchronize env) w2)).
  destruct Hfixed as [_ [_ [Hsync _]]].
  assert (H3 : Rebound.t (sim w3)
               = dadd (Rebound.t (sim w)) (Rebound.dt (sim w))
               /\ Rebound.dt (sim w3)
                  = dsub tmax (dadd (Rebound.t (sim w)) (Rebound.dt (sim w)))
               /\ running exact (sim w3)
               /\ calls_of EvIntegratorPart1 (trace w3)
                  = S (calls_of EvIntegratorPart1 (trace w))).
  { unfold w3, assign. simpl. rewrite sim_call, Hsync, Ht2.
    split; [reflexivity | split; [reflexivity | split]].
    - apply (proj2 running_blind). rewrite <- (sim_call EvIntegratorSynchronize).
      apply call_keeps; [| exact Hrun2].
      apply (extern_preserves env _ _ Hkeeps). simpl. tauto.
    - rewrite trace_call, calls_of_app, Hcalls2. cbn. lia. }
  destruct H3 as [Ht3 [Hdt3 [Hrun3 Hcalls3]]].
  destruct (after_callback w3 Hrun3) as [Ht1 [Hdt1 [Hrun1 Hcalls1]]].
  exists (call_post_timestep env w3).
  split; [| rewrite Ht1, Hdt1, Hcalls1; auto].
  rewrite running_pass by assumption.
  rewrite advance_unfold. fold w2.
  rewrite (finish_test_running (sim w2) Hrun2), Ht2, Hdt2, Htest.
  reflexivity.
Qed.

Lemma loop_stops_at (fuel : nat) (l : Locals) (w : World D Ext) :
  running exact (sim w) ->
  ret_value l = 0 ->
  dlt (dmul (Rebound.t (sim w)) s) (dmul tmax s) = false \/ 2 <= last_step l ->
  integrate_loop cfg env tmax maxR minD s (S fuel) l w = Some (Next l, w).
Proof.
  intros Hrun Hret Hstop. apply loop_ends.
  rewrite cond_running by assumption.
  destruct Hstop as [H | H].
  - now rewrite H.
  - apply Z.ltb_ge in H. rewrite H. apply andb_false_r.
Qed.

Variable h : D.

(** Without [exact_finish_time]: [m] passes more, then the one that
    reaches [tmax]. *)
Lemma plain_loop (m : nat) :
  exact = false ->
  forall (l : Locals) (w : World D Ext),
    running exact (sim w) ->
    ret_value l = 0 ->
    last_step l = 0 ->
    Rebound.dt (sim w) = h ->
    (forall j, (j <= m)%nat ->
       dlt (dmul (Nat.iter j (fun t => dadd t h) (Rebound.t (sim w))) s)
           (dmul tmax s) = true) ->
    dlt (dmul (Nat.iter (S m) (fun t => dadd t h) (Rebound.t (sim w))) s)
        (dmul tmax s) = false ->
    exists l' w',
      integrate_loop cfg env tmax maxR minD s (S (S m)) l w
      = Some (Next l', w')
      /\ Rebound.t (sim w')
         = Nat.iter (S m) (fun t => dadd t h) (Rebound.t (sim w))
      /\ dt_last_done l' = h
      /\ ret_value l' = 0
      /\ calls_of EvIntegratorPart1 (trace w')
         = (calls_of EvIntegratorPart1 (trace w) + S m)%nat.
Proof.
  intros Hexact. induction m as [| m IH]; intros l w Hrun Hret Hmarks Hdt Hlt Hge.
  - destruct (free_pass 1 l w Hrun Hret ltac:(lia) (Hlt O (Nat.le_refl _))
                ltac:(rewrite Hexact; apply andb_false_r))
      as [w1 [Hloop [Ht1 [Hdt1 [Hrun1 Hcalls1]]]]].
    rewrite Hdt in *.
    exists (mkLocals h (last_step l) 0), w1.
    rewrite Hloop, loop_stops_at;
      [| exact Hrun1 | reflexivity | left; rewrite Ht1; exact Hge].
    simpl. rewrite Ht1, Hcalls1. repeat split. lia.
  - destruct (free_pass (S (S m)) l w Hrun Hret ltac:(lia)
                (Hlt O (Nat.le_0_l _))
                ltac:(rewrite Hexact; apply andb_false_r))
      as [w1 [Hloop [Ht1 [Hdt1 [Hrun1 Hcalls1]]]]].
    rewrite Hdt in *.
    destruct (IH (mkLocals h (last_step l) 0) w1 Hrun1 eq_refl Hmarks Hdt1)
      as [l' [w' [Hloop' [Ht' [Hdld' [Hret' Hcalls']]]]]].
    { intros j Hj. rewrite Ht1, (iter_shift D (fun t => dadd t h) j).
      apply Hlt. lia. }
    { rewrite Ht1. now rewrite (iter_shift D (fun t => dadd t h) (S m)). }
    exists l', w'. rewrite Hloop, Hloop'.
    rewrite Ht', Ht1, (iter_shift D (fun t => dadd t h) (S m)), Hcalls', Hcalls1.
    repeat split; try assumption. lia.
Qed.

(** With [exact_finish_time]: the pass of the truncated step, whose
    re-check sets the second mark. *)
Lemma final_pass (fuel : nat) (l : Locals) (w : World D Ext) :
  exact = true ->
  running exact (sim w) ->
  ret_value l = 0 ->
  last_step l = 1 ->
  dlt (dmul (Rebound.t (sim w)) s) (dmul tmax s) = true ->
  Rebound.dt (sim w) = dsub tmax (Rebound.t (sim w)) ->
  dge (dmul (dadd (dadd (Rebound.t (sim w)) (dsub tmax (Rebound.t (sim w))))
                  (dsub tmax (Rebound.t (sim w)))) s) (dmul tmax s) = true ->
  exists l' w',
    integrate_loop cfg env tmax maxR minD s (S (S fuel)) l w
    = Some (Next l', w')
    /\ Rebound.t (sim w')
       = dadd (Rebound.t (sim w)) (dsub tmax (Rebound.t (sim w)))
    /\ dt_last_done l' = dt_last_done l
    /\ ret_value l' = 0
    /\ calls_of EvIntegratorPart1 (trace w')
       = S (calls_of EvIntegratorPart1 (trace w)).
Proof.
  intros Hexact Hrun Hret Hmarks Hlt Hdt Hge.
  destruct (truncating_pass (S fuel) l w Hrun Hret ltac:(lia) Hlt)
    as [w1 [Hloop [Ht1 [Hdt1 [Hrun1 Hcalls1]]]]].
  { now rewrite Hexact, andb_true_r, Hdt. }
  exists (mkLocals (dt_last_done l) (last_step l + 1) 0), w1.
  rewrite Hloop, loop_stops_at;
    [| exact Hrun1 | reflexivity | right; simpl; lia].
  rewrite Ht1, Hdt, Hcalls1. simpl. repeat split.
Qed.

(** With [exact_finish_time]: [m] free passes, the pass whose re-check
    truncates, and the pass of the truncated step. *)
Lemma exact_loop (m : nat) :
  exact = true ->
  forall (l : Locals) (w : World D Ext),
    running exact (sim w) ->
    ret_value l = 0 ->
    last_step l = 0 ->
    Rebound.dt (sim w) = h ->
    dt_last_done l = h ->
    (forall j, (j <= S m)%nat ->
       dlt (dmul (Nat.iter j (fun t => dadd t h) (Rebound.t (sim w))) s)
           (dmul tmax s) = true) ->
    (forall j, (2 <= j <= S m)%nat ->
       dge (dmul (Nat.iter j (fun t => dadd t h) (Rebound.t (sim w))) s)
           (dmul tmax s) = false) ->
    dge (dmul (Nat.iter (S (S m)) (fun t => dadd t h) (Rebound.t (sim w))) s)
        (dmul tmax s) = true ->
    (let tk := Nat.iter (S m) (fun t => dadd t h) (Rebound.t (sim w)) in
     dge (dmul (dadd (dadd tk (dsub tmax tk)) (dsub tmax tk)) s) (dmul tmax s)
     = true) ->
    exists l' w',
      integrate_loop cfg env tmax maxR minD s (S (S (S m))) l w
      = Some (Next l', w')
      /\ Rebound.t (sim w')
         = (let tk := Nat.iter (S m) (fun t => dadd t h) (Rebound.t (sim w)) in
            dadd tk (dsub tmax tk))
      /\ dt_last_done l' = h
      /\ ret_value l' = 0
      /\ calls_of EvIntegratorPart1 (trace w')
         = (calls_of EvIntegratorPart1 (trace w) + S (S m))%nat.
Proof.
  intros Hexact.
  induction m as [| m IH];
    intros l w Hrun Hret Hmarks Hdt Hdld Hlt Hfree Hge Hlast.
  - simpl in Hge, Hlast. cbn [Nat.iter].
    destruct (truncating_pass 2 l w Hrun Hret ltac:(lia)
                (Hlt O (Nat.le_0_l _)))
      as [w1 [Hloop [Ht1 [Hdt1 [Hrun1 Hcalls1]]]]].
    { now rewrite Hexact, andb_true_r, Hdt. }
    rewrite Hdt in *.
    destruct (final_pass 0 (mkLocals (dt_last_done l) (last_step l + 1) 0) w1
                Hexact Hrun1 eq_refl ltac:(simpl; lia))
      as [l' [w' [Hloop' [Ht' [Hdld' [Hret' Hcalls']]]]]].
    { rewrite Ht1. exact (Hlt 1%nat (Nat.le_refl _)). }
    { now rewrite Hdt1, Ht1. }
    { rewrite Ht1. exact Hlast. }
    exists l', w'. rewrite Hloop, Hloop', Hcalls', Hcalls1, Ht', Ht1.
    simpl in Hdld'. rewrite Hdld', Hdld. repeat split; try assumption. lia.
  - destruct (free_pass (S (S (S m))) l w Hrun Hret ltac:(lia)
                (Hlt O (Nat.le_0_l _)))
      as [w1 [Hloop [Ht1 [Hdt1 [Hrun1 Hcalls1]]]]].
    { rewrite Hdt. apply andb_false_intro1.
      apply (Hfree 2%nat). lia. }
    rewrite Hdt in *.
    destruct (IH (mkLocals h (last_step l) 0) w1 Hrun1 eq_refl Hmarks Hdt1 eq_refl)
      as [l' [w' [Hloop' [Ht' [Hdld' [Hret' Hcalls']]]]]].
    { intros j Hj. rewrite Ht1, (iter_shift D (fun t => dadd t h) j).
      apply Hlt. lia. }
    { intros j Hj. rewrite Ht1, (iter_shift D (fun t => dadd t h) j).
      apply Hfree. lia. }
    { rewrite Ht1, (iter_shift D (fun t => dadd t h) (S (S m))). exact Hge. }
    { rewrite Ht1, (iter_shift D (fun t => dadd t h) (S m)). exact Hlast. }
    exists l', w'. rewrite Hloop, Hloop', Hcalls', Hcalls1, Ht', Ht1.
    rewrite (iter_shift D (fun t => dadd t h) (S m)).
    repeat split; try assumption. lia.
Qed.

(** A step that the time absorbs ([t + dt] is [t]) leaves the run where
    it is: no amount of fuel ends the loop. *)
Lemma absorbed_loop (fuel : nat) :
  exact = false ->
  forall (l : Locals) (w : World D Ext),
    running exact (sim w) ->
    ret_value l = 0 ->
    last_step l = 0 ->
    dadd (Rebound.t (sim w)) (Rebound.dt (sim w)) = Rebound.t (sim w) ->
    dlt (dmul (Rebound.t (sim w)) s) (dmul tmax s) = true ->
    integrate_loop cfg env tmax maxR minD s fuel l w = None.
Proof.
  intros Hexact. induction fuel as [| fuel IH];
    intros l w Hrun Hret Hmarks Habs Hlt; [reflexivity |].
  destruct (free_pass fuel l w Hrun Hret ltac:(lia) Hlt
              ltac:(rewrite Hexact; apply andb_false_r))
    as [w1 [Hloop [Ht1 [Hdt1 [Hrun1 _]]]]].
  rewrite Hloop. rewrite Habs in Ht1.
  apply IH; try assumption; try reflexivity.
  - now rewrite Ht1, Hdt1.
  - now rewrite Ht1.
Qed.

End FixedStepRuns.

(** X12.  A run without [exact_finish_time] and without monitoring
    ([maxR] and [minD] zero), with fixed-step collaborators that keep the
    particles, do not ask to exit and leave [exact_finish_time] off.
    Let the times be those that the code computes, [t], [t + dt],
    [(t + dt) + dt], ...  If the first [k + 1] of them are before [tmax]
    as the loop condition compares, and the next one is not, then
    [rebound_integrate] ends: it makes [k + 1] steps and returns 0, with
    [t] that next time and [dt] unchanged.  It holds in any arithmetic
    and in either direction of integration. *)
Theorem fixed_step_run_ends {D : Type} {ops : DoubleOps D} {Ext : Type}
    (cfg : BuildConfig) (env : Collaborators D Ext) (tmax maxR minD : D)
    (w : World D Ext) (k : nat) :
  let h := Rebound.dt (sim w) in
  let s := copysign1 h in
  let time := fun j => Nat.iter j (fun t => dadd t h) (Rebound.t (sim w)) in
  fixed_step cfg env ->
  env_preserves env (running false) ->
  running false (sim w) ->
  dnonzero maxR = false ->
  dnonzero minD = false ->
  (forall j, (j <= k)%nat -> dlt (dmul (time j) s) (dmul tmax s) = true) ->
  dlt (dmul (time (S k)) s) (dmul tmax s) = false ->
  exists wf,
    rebound_integrate cfg env (S (S k)) tmax maxR minD w = Some (0, wf)
    /\ Rebound.t (sim wf) = time (S k)
    /\ Rebound.dt (sim wf) = h
    /\ calls_of EvIntegratorPart1 (trace wf)
       = (calls_of EvIntegratorPart1 (trace w) + S k)%nat.
Proof.
  intros h s time Hfixed Hkeeps Hrun HmaxR HminD Hlt Hge.
  set (w1 := call_post_timestep env (emit EvGettimeofday w)).
  destruct (after_callback cfg env false Hfixed Hkeeps (emit EvGettimeofday w) Hrun)
    as [Ht1 [Hdt1 [Hrun1 Hcalls1]]].
  fold w1 in Ht1, Hdt1, Hrun1, Hcalls1. simpl in Ht1, Hdt1, Hcalls1.
  assert (Hpre : precheck tmax s w1 = (0, w1)).
  { unfold precheck. rewrite (finish_test_running tmax s false (sim w1) Hrun1).
    now rewrite andb_false_r. }
  destruct (plain_loop cfg env tmax maxR minD s false Hfixed Hkeeps HmaxR HminD
              h k eq_refl (mkLocals h 0 0) w1 Hrun1 eq_refl eq_refl)
    as [l' [w' [Hloop [Ht' [Hdld' [Hret' Hcalls']]]]]].
  { exact Hdt1. }
  { intros j Hj. rewrite Ht1. now apply Hlt. }
  { rewrite Ht1. exact Hge. }
  destruct (epilogue_result env l' w') as [Hcode [Htrace [Hsim Hdt]]].
  destruct (epilogue env l' w') as [c wf] eqn:He.
  simpl in Hcode, Htrace, Hsim, Hdt.
  exists wf. split; [| split; [| split]].
  - rewrite rebound_integrate_unfold, prologue_dtsign, prologue_locals,
      prologue_world.
    fold h s w1. rewrite Hpre. simpl fst. simpl snd.
    rewrite Hloop, He. now rewrite Hcode, Hret'.
  - rewrite Hsim. simpl. destruct Hfixed as [_ [_ [Hsync _]]].
    now rewrite Hsync, Ht', Ht1.
  - now rewrite Hdt, Hdld'.
  - rewrite Htrace, calls_of_app, Hcalls', Hcalls1,
      (calls_of_app _ (trace w) [EvGettimeofday]).
    cbn. lia.
Qed.

(** X13.  A run with [exact_finish_time] set and without monitoring,
    with fixed-step collaborators that keep the particles, do not ask to
    exit and leave [exact_finish_time] set.  Let the times be those that
    the code computes, [t], [t + dt], [(t + dt) + dt], ...  If the first
    [k + 1] of them are before [tmax] as the loop condition compares,
    the check for truncation ([>=]) fails on the first [k] after [t] and
    holds on the next one, and holds again after the truncated step,
    then [rebound_integrate] ends: it makes [k] whole steps and one step
    of [tmax - tk] from the time [tk] that they reach, and returns 0 with
    [t] equal to [tk + (tmax - tk)], as the arithmetic computes it, and
    [dt] restored to its value at entry.  It holds in any arithmetic and
    in either direction of integration. *)
Theorem exact_finish_run_ends {D : Type} {ops : DoubleOps D} {Ext : Type}
    (cfg : BuildConfig) (env : Collaborators D Ext) (tmax maxR minD : D)
    (w : World D Ext) (k : nat) :
  let h := Rebound.dt (sim w) in
  let s := copysign1 h in
  let time := fun j => Nat.iter j (fun t => dadd t h) (Rebound.t (sim w)) in
  let tk := time k in
  fixed_step cfg env ->
  env_preserves env (running true) ->
  running true (sim w) ->
  dnonzero maxR = false ->
  dnonzero minD = false ->
  (forall j, (j <= k)%nat -> dlt (dmul (time j) s) (dmul tmax s) = true) ->
  (forall j, (1 <= j <= k)%nat -> dge (dmul (time j) s) (dmul tmax s) = false) ->
  dge (dmul (time (S k)) s) (dmul tmax s) = true ->
  dge (dmul (dadd (dadd tk (dsub tmax tk)) (dsub tmax tk)) s) (dmul tmax s)
  = true ->
  exists wf,
    rebound_integrate cfg env (S (S k)) tmax maxR minD w = Some (0, wf)
    /\ Rebound.t (sim wf) = dadd tk (dsub tmax tk)
    /\ Rebound.dt (sim wf) = h
    /\ calls_of EvIntegratorPart1 (trace wf)
       = (calls_of EvIntegratorPart1 (trace w) + S k)%nat.
Proof.
  intros h s time tk Hfixed Hkeeps Hrun HmaxR HminD Hlt Hfree Hge Hlast.
  set (w1 := call_post_timestep env (emit EvGettimeofday w)).
  destruct (after_callback cfg env true Hfixed Hkeeps (emit EvGettimeofday w) Hrun)
    as [Ht1 [Hdt1 [Hrun1 Hcalls1]]].
  fold w1 in Ht1, Hdt1, Hrun1, Hcalls1. simpl in Ht1, Hdt1, Hcalls1.
  fold h in Hdt1.
  assert (Hloop : exists l' w',
             integrate_loop cfg env tmax maxR minD s (S (S k))
               (mkLocals h (fst (precheck tmax s w1)) 0)
               (snd (precheck tmax s w1))
             = Some (Next l', w')
             /\ Rebound.t (sim w') = dadd tk (dsub tmax tk)
             /\ dt_last_done l' = h
             /\ ret_value l' = 0
             /\ calls_of EvIntegratorPart1 (trace w')
                = (calls_of EvIntegratorPart1 (trace w1) + S k)%nat).
  { unfold precheck. rewrite (finish_test_running tmax s true (sim w1) Hrun1).
    rewrite andb_true_r, Ht1, Hdt1.
    destruct k as [| m].
    - unfold time in Hge. simpl in Hge. rewrite Hge. cbn [fst snd].
      destruct (final_pass cfg env tmax maxR minD s true Hfixed Hkeeps HmaxR HminD
                  0 (mkLocals h 1 0)
                  (assign (fun r => Rebound.set_dt (dsub tmax (Rebound.t r)) r) w1)
                  eq_refl Hrun1 eq_refl eq_refl)
        as [l' [w' [Hl [Ht' [Hdld' [Hret' Hcalls']]]]]].
      { simpl. rewrite Ht1. exact (Hlt O (Nat.le_refl _)). }
      { reflexivity. }
      { simpl. rewrite Ht1. exact Hlast. }
      exists l', w'. rewrite Hl, Hcalls', Ht'. simpl. rewrite Ht1.
      repeat split; auto. lia.
    - assert (Hfalse : dge (dmul (dadd (Rebound.t (sim w)) h) s) (dmul tmax s)
                       = false).
      { apply (Hfree 1%nat). lia. }
      rewrite Hfalse. cbn [fst snd].
      destruct (exact_loop cfg env tmax maxR minD s true Hfixed Hkeeps HmaxR HminD
                  h m eq_refl (mkLocals h 0 0) w1 Hrun1 eq_refl eq_refl Hdt1
                  eq_refl)
        as [l' [w' [Hl [Ht' [Hdld' [Hret' Hcalls']]]]]].
      { intros j Hj. rewrite Ht1. now apply Hlt. }
      { intros j Hj. rewrite Ht1. apply Hfree. lia. }
      { rewrite Ht1. exact Hge. }
      { rewrite Ht1. exact Hlast. }
      exists l', w'. rewrite Hl, Ht', Ht1. repeat split; auto. }
  destruct Hloop as [l' [w' [Hloop [Ht' [Hdld' [Hret' Hcalls']]]]]].
  destruct (epilogue_result env l' w') as [Hcode [Htrace [Hsim Hdt]]].
  destruct (epilogue env l' w') as [c wf] eqn:He.
  simpl in Hcode, Htrace, Hsim, Hdt.
  exists wf. split; [| split; [| split]].
  - rewrite rebound_integrate_unfold, prologue_dtsign, prologue_locals,
      prologue_world.
    fold h s w1. rewrite Hloop, He. now rewrite Hcode, Hret'.
  - rewrite Hsim. simpl. destruct Hfixed as [_ [_ [Hsync _]]].
    now rewrite Hsync, Ht'.
  - now rewrite Hdt, Hdld'.
  - rewrite Htrace, calls_of_app, Hcalls', Hcalls1,
      (calls_of_app _ (trace w) [EvGettimeofday]).
    cbn. lia.
Qed.

(** X14.  A step that the time absorbs never ends the run.  Without
    [exact_finish_time] and without monitoring, with fixed-step
    collaborators that keep the particles, do not ask to exit and leave
    [exact_finish_time] off: when [t + dt] is [t] as the arithmetic
    computes it (in binary64, a [dt] below half the spacing of the
    doubles at [t]) and [t] is before [tmax], the loop condition holds
    at every test, and [rebound_integrate] does not return, whatever the
    number of tests allowed. *)
Theorem absorbed_step_never_returns {D : Type} {ops : DoubleOps D} {Ext : Type}
    (cfg : BuildConfig) (env : Collaborators D Ext) (tmax maxR minD : D)
    (w : World D Ext) (fuel : nat) :
  let h := Rebound.dt (sim w) in
  let s := copysign1 h in
  fixed_step cfg env ->
  env_preserves env (running false) ->
  running false (sim w) ->
  dnonzero maxR = false ->
  dnonzero minD = false ->
  dadd (Rebound.t (sim w)) h = Rebound.t (sim w) ->
  dlt (dmul (Rebound.t (sim w)) s) (dmul tmax s) = true ->
  rebound_integrate cfg env fuel tmax maxR minD w = None.
Proof.
  intros h s Hfixed Hkeeps Hrun HmaxR HminD Habs Hlt.
  set (w1 := call_post_timestep env (emit EvGettimeofday w)).
  destruct (after_callback cfg env false Hfixed Hkeeps (emit EvGettimeofday w) Hrun)
    as [Ht1 [Hdt1 [Hrun1 _]]].
  fold w1 in Ht1, Hdt1, Hrun1. simpl in Ht1, Hdt1. fold h in Hdt1.
  assert (Hpre : precheck tmax s w1 = (0, w1)).
  { unfold precheck. rewrite (finish_test_running tmax s false (sim w1) Hrun1).
    now rewrite andb_false_r. }
  rewrite rebound_integrate_unfold, prologue_dtsign, prologue_locals,
    prologue_world.
  fold h s w1. rewrite Hpre. simpl fst. simpl snd.
  rewrite (absorbed_loop cfg env tmax maxR minD s false Hfixed Hkeeps HmaxR HminD
             fuel eq_refl (mkLocals h 0 0) w1 Hrun1 eq_refl eq_refl);
    [reflexivity | now rewrite Ht1, Hdt1 | now rewrite Ht1].
Qed.

(** ** The further properties on inputs *)

Lemma Demo_env_preserves {D : Type} {ops : DoubleOps D}
    (P : Rebound.struct D -> Prop) :
  (forall v r, P r -> P (Rebound.set_t v r)) ->
  (forall v r, P r -> P (Rebound.set_ri_whfast v r)) ->
  env_preserves (Ext := list Z) Demo.env P.
Proof.
  intros Ht Hw. split.
  - repeat constructor; intros r x Hr; simpl;
      unfold Demo.part2, Demo.mark_synchronized; simpl;
      try exact Hr; try (apply Hw; exact Hr).
    destruct (WHFast.safe_mode (Rebound.ri_whfast r) =? 0); simpl.
    + apply Ht. exact Hr.
    + apply Hw. apply Ht. exact Hr.
  - intros p r x Hr. exact Hr.
Qed.

Lemma Demo_fixed_step {D : Type} {ops : DoubleOps D} :
  fixed_step (D := D) (Ext := list Z) Demo.plain Demo.env.
Proof.
  split; [apply Demo_step_advances_time |].
  split.
  - intros [r x tr].
    unfold rebound_step, step_tree, step_forces,
      step_post_timestep_modifications, step_collisions, andThen, when, ifdef,
      ifndef, invoke, assign, call.
    simpl.
    repeat match goal with
           | |- context [if ?b then _ else _] => destruct b; simpl
           end;
      reflexivity.
  - split; [apply Demo_keeps_time |].
    split; [| apply Demo_keeps_time].
    split; intros r x; reflexivity.
Qed.

(** X1 (witness): the run that ends on an escape. *)
Lemma result_codes_witness :
  exists code wf,
    rebound_integrate Demo.plain Demo.env 10 10%float 1%float 0%float
      Demo.escaping = Some (code, wf)
    /\ code = 2
    /\ dnonzero 1%float = true.
Proof.
  assert (Hrun : exists wf,
             rebound_integrate Demo.plain Demo.env 10 10%float 1%float 0%float
               Demo.escaping = Some (2, wf)).
  { eexists. vm_compute. reflexivity. }
  destruct Hrun as [wf Hrun]. exists 2, wf.
  split; [exact Hrun |]. split; [reflexivity |].
  exact (proj1 (proj2 (result_codes Demo.plain Demo.env 10 10%float 1%float
                         0%float Demo.escaping 2 wf Hrun)) eq_refl).
Defined.

(** X2 (witness): the binary64 run across zero, after its two passes. *)
Lemma marks_bounded_witness :
  exists l wk,
    passes Demo.plain Demo.env (dlit 1 (-1)) 0%float 0%float
      (fst (fst (prologue Demo.env (dlit 1 (-1)) Demo.crossing_zero))) 2
      (snd (fst (prologue Demo.env (dlit 1 (-1)) Demo.crossing_zero)))
      (snd (prologue Demo.env (dlit 1 (-1)) (@Demo.crossing_zero float _)))
    = Some (l, wk)
    /\ last_step l = 2
    /\ 0 <= last_step l <= 2.
Proof.
  assert (H : exists l wk,
             passes Demo.plain Demo.env (dlit 1 (-1)) 0%float 0%float
               (fst (fst (prologue Demo.env (dlit 1 (-1)) Demo.crossing_zero))) 2
               (snd (fst (prologue Demo.env (dlit 1 (-1)) Demo.crossing_zero)))
               (snd (prologue Demo.env (dlit 1 (-1)) (@Demo.crossing_zero float _)))
             = Some (l, wk)
             /\ last_step l = 2).
  { do 2 eexists. split; [vm_compute; reflexivity | reflexivity]. }
  destruct H as [l [wk [Hk Hm]]]. exists l, wk.
  split; [exact Hk |]. split; [exact Hm |].
  exact (proj2 (marks_bounded Demo.plain Demo.env (dlit 1 (-1)) 0%float 0%float
                  Demo.crossing_zero 2 l wk Hk)).
Defined.

(** X3 (witness): one particle, target time 10, and [exit_simulation]
    already 1. *)
Lemma cancelled_at_entry_witness :
  exists wf,
    rebound_integrate Demo.plain Demo.env 10 10%float 0%float 0%float
      Cases.cancelled = Some (0, wf)
    /\ trace wf
       = [EvGettimeofday; EvIntegratorSynchronize; EvGettimeofday; EvPrintRuntime]
    /\ Rebound.dt (sim wf) = 1%float.
Proof.
  exact (cancelled_at_entry Demo.plain Demo.env 9 10%float 0%float 0%float
           Cases.cancelled ltac:(simpl; discriminate)).
Defined.

(** X4 (witness): the [post_timestep_modifications] callback sets
    [exit_simulation] during the first step; the run ends after that
    step, at time 1 of 10. *)
Lemma cancellation_ends_loop_witness :
  exists wf,
    rebound_integrate Demo.plain Cases.stopping_env 10 10%float 0%float 0%float
      Cases.modified = Some (0, wf)
    /\ Rebound.t (sim wf) = 1%float
    /\ calls_of EvIntegratorPart1 (trace wf) = 1%nat.
Proof.
  assert (Hb : exists l' w',
             loop_body Demo.plain Cases.stopping_env 10%float 0%float 0%float
               (fst (fst (prologue Cases.stopping_env 10%float Cases.modified)))
               (snd (fst (prologue Cases.stopping_env 10%float Cases.modified)))
               (snd (prologue Cases.stopping_env 10%float
                       (@Cases.modified float _)))
             = (Next l', w')
             /\ Rebound.exit_simulation (sim w') = 1).
  { do 2 eexists. split; [vm_compute; reflexivity | reflexivity]. }
  destruct Hb as [l' [w' [Hb Hexit]]].
  destruct (cancellation_ends_loop (ops := Binary64) Demo.plain
              Cases.stopping_env 10%float 0%float 0%float
              (Cases.modified (ops := Binary64)) 0 8 _ l' _ w' eq_refl
              ltac:(vm_compute; reflexivity) Hb
              ltac:(rewrite Hexit; discriminate))
    as [wf [Hrun Htrace]].
  exists wf. split; [exact Hrun |].
  vm_compute in Hrun. inversion Hrun; subst wf. split; reflexivity.
Defined.

(** X5 (witness): [N <= Nmax] over a step and over a run. *)
Lemma controller_keeps_invariant_witness :
  Rebound.N (sim (rebound_step Demo.plain Demo.env (@Demo.unsafe float _)))
  <= Rebound.Nmax (sim (rebound_step Demo.plain Demo.env (@Demo.unsafe float _))).
Proof.
  exact (proj1
           (controller_keeps_invariant Demo.plain Demo.env
              (fun r => Rebound.N r <= Rebound.Nmax r)
              (Demo_env_preserves
                 (fun r : Rebound.struct float => Rebound.N r <= Rebound.Nmax r)
                 (fun v r H => H) (fun v r H => H))
              (fun r H => H))
           Demo.unsafe ltac:(simpl; lia)).
Defined.

(** X6 (witness): the struct that [rebound_init] returns. *)
Lemma scans_need_particles_witness :
  monitor 1%float 1%float (sim (@Demo.fresh float _)) 0 = 0.
Proof.
  exact (proj1 (scans_need_particles 1%float 1%float (sim Demo.fresh) 0)
           ltac:(simpl; lia)).
Defined.

(** X7 (witness): a variational particle at distance 10 or at the
    origin, beside one particle at the origin, [maxR = 1], [minD = 1]. *)
Lemma scans_ignore_variational_witness :
  monitor 1%float 1%float (Cases.with_variational 10%float) 0
  = monitor 1%float 1%float (Cases.with_variational 0%float) 0.
Proof.
  exact (scans_ignore_variational 1%float 1%float 1
           (Cases.with_variational 10%float) (Cases.with_variational 0%float) 0
           (conj eq_refl (conj eq_refl eq_refl))).
Defined.

(** X8 (witness): binary64, the target time 10. *)
Lemma integrate_after_init_witness :
  rebound_integrate Demo.plain Demo.env 10 10%float 0%float 0%float
    (mkWorld init_fields [] [EvPrintLogo; EvToolsInitSrand; EvPrintInitialized])
  = Some (1, mkWorld init_fields []
               [EvPrintLogo; EvToolsInitSrand; EvPrintInitialized;
                EvGettimeofday; EvErrorNoParticles]).
Proof.
  destruct (integrate_after_init (ops := Binary64) Demo.plain Demo.env 9 10%float
              0%float 0%float 1 [])
    as [tr [Hinit [Hahead _]]].
  inversion Hinit; subst tr.
  exact (Hahead ltac:(vm_compute; reflexivity)).
Defined.

(** X9 (witness): three passes of a run with step 1 from time 0. *)
Lemma time_after_passes_witness :
  exists l' w',
    passes Demo.plain Demo.env 10%float 0%float 0%float 1%float 3
      (mkLocals 1%float 0 0) (@Cases.hooked float _) = Some (l', w')
    /\ Rebound.t (sim w') = 3%float
    /\ Rebound.dt (sim w') = 1%float.
Proof.
  assert (H : exists l' w',
             passes Demo.plain Demo.env 10%float 0%float 0%float 1%float 3
               (mkLocals 1%float 0 0) (@Cases.hooked float _) = Some (l', w')
             /\ last_step l' = 0).
  { do 2 eexists. split; [vm_compute; reflexivity | reflexivity]. }
  destruct H as [l' [w' [Hk Hm]]]. exists l', w'. split; [exact Hk |].
  destruct (Demo_fixed_step (D := float)) as [Hstep [Hdt [_ [Hdisp Hhooks]]]].
  exact (time_after_passes Demo.plain Demo.env 10%float 0%float 0%float 1%float 3
           (mkLocals 1%float 0 0) l' Cases.hooked w' Hstep Hdt Hdisp Hhooks Hk
           ltac:(simpl; lia) Hm).
Defined.

(** X10 (witness): a run of three steps with a callback at address 7. *)
Lemma post_timestep_calls_witness :
  exists wf,
    rebound_integrate Demo.plain Demo.env 10 3%float 0%float 0%float
      Cases.hooked = Some (0, wf)
    /\ calls_of EvIntegratorPart1 (trace wf) = 3%nat
    /\ calls_of EvPostTimestep (trace wf) = 4%nat.
Proof.
  assert (Hrun : exists wf,
             rebound_integrate Demo.plain Demo.env 10 3%float 0%float 0%float
               Cases.hooked = Some (0, wf)
             /\ calls_of EvIntegratorPart1 (trace wf) = 3%nat).
  { eexists. split; vm_compute; reflexivity. }
  destruct Hrun as [wf [Hrun Hsteps]]. exists wf.
  split; [exact Hrun |]. split; [exact Hsteps |].
  pose proof (post_timestep_calls Demo.plain Demo.env 7 10 3%float 0%float
                0%float Cases.hooked 0 wf eq_refl
                (Demo_env_preserves
                   (fun r : Rebound.struct float => Rebound.post_timestep r = 7)
                   (fun v r H => H) (fun v r H => H))
                eq_refl Hrun) as H.
  rewrite Hsteps in H.
  change (calls_of EvIntegratorPart1 (trace (@Cases.hooked float Binary64)))
    with 0%nat in H.
  change (calls_of EvPostTimestep (trace (@Cases.hooked float Binary64)))
    with 0%nat in H.
  lia.
Defined.

(** X12 (witness): binary64, from time 0 with step 0.3 to the target 1,
    without [exact_finish_time]: four steps, to the time that four
    additions of 0.3 give. *)
Lemma fixed_step_run_ends_witness :
  exists wf,
    rebound_integrate Demo.plain Demo.env 5 1%float 0%float 0%float
      Cases.plain_three_tenths = Some (0, wf)
    /\ Rebound.t (sim wf) = 0x1.3333333333333p+0%float
    /\ Rebound.dt (sim wf) = dlit 3 (-1)
    /\ calls_of EvIntegratorPart1 (trace wf) = 4%nat.
Proof.
  destruct (fixed_step_run_ends (ops := Binary64) Demo.plain Demo.env 1%float
              0%float 0%float (Cases.plain_three_tenths (ops := Binary64)) 3
              Demo_fixed_step
              (Demo_env_preserves (running (D := float) false)
                 (fun v r H => H) (fun v r H => H))
              (conj eq_refl (conj eq_refl eq_refl))
              ltac:(vm_compute; reflexivity) ltac:(vm_compute; reflexivity)
              ltac:(intros j Hj; destruct j as [| [| [| [| j]]]]; try lia;
                    vm_compute; reflexivity)
              ltac:(vm_compute; reflexivity))
    as [wf [Hrun [Ht [Hdt Hcalls]]]].
  exists wf. split; [exact Hrun |]. split; [exact Ht |].
  split; [exact Hdt | exact Hcalls].
Defined.

(** X13 (witness): the same with [exact_finish_time]: three steps of
    0.3 and one cut to [1 - t], which lands on 1. *)
Lemma exact_finish_run_ends_witness :
  exists wf,
    rebound_integrate Demo.plain Demo.env 5 1%float 0%float 0%float
      Demo.three_tenths = Some (0, wf)
    /\ Rebound.t (sim wf) = 1%float
    /\ Rebound.dt (sim wf) = dlit 3 (-1)
    /\ calls_of EvIntegratorPart1 (trace wf) = 4%nat.
Proof.
  destruct (exact_finish_run_ends (ops := Binary64) Demo.plain Demo.env 1%float
              0%float 0%float (Demo.three_tenths (ops := Binary64)) 3
              Demo_fixed_step
              (Demo_env_preserves (running (D := float) true)
                 (fun v r H => H) (fun v r H => H))
              (conj eq_refl (conj eq_refl eq_refl))
              ltac:(vm_compute; reflexivity) ltac:(vm_compute; reflexivity)
              ltac:(intros j Hj; destruct j as [| [| [| [| j]]]]; try lia;
                    vm_compute; reflexivity)
              ltac:(intros j Hj; destruct j as [| [| [| [| j]]]]; try lia;
                    vm_compute; reflexivity)
              ltac:(vm_compute; reflexivity) ltac:(vm_compute; reflexivity))
    as [wf [Hrun [Ht [Hdt Hcalls]]]].
  exists wf. split; [exact Hrun |]. split; [exact Ht |].
  split; [exact Hdt | exact Hcalls].
Defined.

(** X14 (witness): binary64, time 1e16, step 1, target 1e16 + 4, all
    three exact; the doubles at 1e16 are 2 apart and [1e16 + 1] is 1e16:
    200 tests of the loop condition do not end the run, nor does any
    other number. *)
Lemma absorbed_step_never_returns_witness :
  dadd (Rebound.t (sim (@Cases.absorbed float _)))
       (Rebound.dt (sim (@Cases.absorbed float _)))
  = 1e16%float
  /\ rebound_integrate Demo.plain Demo.env 200 10000000000000004%float
       0%float 0%float Cases.absorbed = None.
Proof.
  split; [vm_compute; reflexivity |].
  exact (absorbed_step_never_returns (ops := Binary64) Demo.plain Demo.env
           10000000000000004%float 0%float 0%float
           (Cases.absorbed (ops := Binary64)) 200
           Demo_fixed_step
           (Demo_env_preserves (running (D := float) false)
              (fun v r H => H) (fun v r H => H))
           (conj eq_refl (conj eq_refl eq_refl))
           ltac:(vm_compute; reflexivity) ltac:(vm_compute; reflexivity)
           ltac:(vm_compute; reflexivity) ltac:(vm_compute; reflexivity)).
Defined.
